(** * discord_argparse: named [key=value] arguments for commands

    A shallow embedding of [src/discord_argparse.py] and the properties of
    its conversion engine.

    - Python strings are [string]s; [str.lower] is modelled on the ASCII
      letters (other bytes are left as they are).
    - Python values that can be a default or a converted value are the
      type [val]; [PyNone] is Python's [None], the "absent" default.
    - A raised exception is the [Raise] branch of [result]; [try]/[except]
      is a match on it, with the class tests written as boolean functions.
    - The result dict [converted] is a [gmap string val] (equality of
      Python dicts does not depend on insertion order); the registry
      [self.arguments] is a list of pairs in declaration order, since
      the order decides which missing argument is reported.
    - [await] is sequential here: tokens are converted one after another,
      so an awaited call is an ordinary call of a function of the context
      and the value. *)

From Stdlib Require Import Ascii String Bool Permutation.
From stdpp Require Import base option list strings gmap fin_maps.

(** ** Python strings *)

Module PyStr.

(** [c.lower()] for one ASCII character: 'A'..'Z' move to 'a'..'z'. *)
Definition lower_char (c : ascii) : ascii :=
  let n := nat_of_ascii c in
  if Nat.leb 65 n && Nat.leb n 90 then ascii_of_nat (n + 32) else c.

(** [s.lower()] *)
Fixpoint lower (s : string) : string :=
  match s with
  | EmptyString => EmptyString
  | String c s' => String (lower_char c) (lower s')
  end.

(** [c in s] for a one-character string [c] *)
Fixpoint contains (c : ascii) (s : string) : bool :=
  match s with
  | EmptyString => false
  | String d s' => if Ascii.eqb d c then true else contains c s'
  end.

(** [s.split(sep)] for a one-character separator, as its first piece and
    the remaining pieces: the list Python returns is never empty. *)
Fixpoint split_parts (sep : ascii) (s : string) : string * list string :=
  match s with
  | EmptyString => (EmptyString, [])
  | String c s' =>
      let (w, ws) := split_parts sep s' in
      if Ascii.eqb c sep then (EmptyString, w :: ws) else (String c w, ws)
  end.

Definition split (sep : ascii) (s : string) : list string :=
  let (w, ws) := split_parts sep s in w :: ws.

(** [sep.join(l)] *)
Fixpoint join (sep : string) (l : list string) : string :=
  match l with
  | [] => EmptyString
  | [w] => w
  | w :: ws => w +:+ sep +:+ join sep ws
  end.

(** [s.startswith(p)] and [s.endswith(p)] *)
Definition startswith (s p : string) : bool := String.prefix p s.
Definition endswith (s p : string) : bool :=
  String.prefix (String.rev p) (String.rev s).

(** [x in (a, b, ...)] for a tuple of strings *)
Definition in_tuple (x : string) (t : list string) : bool :=
  existsb (String.eqb x) t.

End PyStr.

(** ** Values and exceptions *)

Inductive val : Type :=
| PyNone
| PyBool (b : bool)
| PyInt (n : Z)
| PyStr (s : string).

Definition is_not_None (v : val) : bool :=
  match v with PyNone => false | _ => true end.

(** What a [commands.ConversionError] was raised about: the first
    argument of its constructor. *)
Inductive subject : Type :=
| SubjValue (value : string)            (* ConversionError(value, None) *)
| SubjConverter (name : option string)  (* ConversionError(converter, e) *)
| SubjSelf.                             (* ConversionError(self, e) *)

#[warnings="-register-all"]
Inductive exn : Type :=
| NameError (name : string)
| AttributeError (attr : string)
| ValueError (msg : string)
| UserException (msg : string)
    (* any other subclass of Exception, raised by a converter *)
| BaseExceptionOnly (cls : string)
    (* a BaseException that is not an Exception: KeyboardInterrupt, ... *)
| ConversionError (subj : subject) (original : option exn)
| InvalidArgumentValueError (name value : string)
| UnknownArgumentError (name : string)
| MissingRequiredArgument (name : string).

(** [isinstance(e, Exception)] *)
Definition is_Exception (e : exn) : bool :=
  match e with BaseExceptionOnly _ => false | _ => true end.

(** [isinstance(e, commands.ConversionError)]: the two errors of this
    module derive from [commands.BadArgument], which is no
    [ConversionError]. *)
Definition is_ConversionError (e : exn) : bool :=
  match e with ConversionError _ _ => true | _ => false end.

(** [isinstance(e, ValueError)] *)
Definition is_ValueError (e : exn) : bool :=
  match e with ValueError _ => true | _ => false end.

Inductive result (A : Type) : Type :=
| Return (a : A)
| Raise (e : exn).
Arguments Return {A} a.
Arguments Raise {A} e.

(** Statements in sequence: the first exception raised ends the block. *)
#[export] Instance result_ret : MRet result := fun A a => Return a.
#[export] Instance result_bind : MBind result := fun A B k r =>
  match r with
  | Return a => k a
  | Raise e => Raise e
  end.

(** ** The tokenizer: [shlex.split(s)]

    The standard library's lexer in POSIX mode with [whitespace_split] set
    and no comment characters, which is what [shlex.split] runs: the
    states of [shlex.read_token] are [' '] (between words), ['a'] (inside
    a word), a quote character and the escape character. *)

Module Shlex.

Inductive state : Type :=
| Space                (* ' ' *)
| Word                 (* 'a' *)
| Quote (q : ascii)    (* the opening quote *)
| Escape.              (* '\\' *)

Definition whitespace (c : ascii) : bool :=
  PyStr.contains c (String " " (String "009" (String "013" (String "010" "")))).
Definition is_escape (c : ascii) : bool := Ascii.eqb c "\".
Definition is_quote (c : ascii) : bool := Ascii.eqb c "'" || Ascii.eqb c "034".
Definition escapedquotes (c : ascii) : bool := Ascii.eqb c "034".

Definition in_quotes (st : state) : bool :=
  match st with Quote _ => true | _ => false end.

Definition add (token : string) (c : ascii) : string :=
  token +:+ String c EmptyString.

(** The end of [read_token]: an empty, unquoted result is [None] and
    yields nothing. *)
Definition emit (quoted : bool) (token : string) (rest : list string)
  : list string :=
  if negb quoted && String.eqb token "" then rest else token :: rest.

Fixpoint read (s : string) (st escapedstate : state) (quoted : bool)
    (token : string) : result (list string) :=
  match s with
  | EmptyString =>
      match st with
      | Space | Word => Return (emit quoted token [])
      | Quote _ => Raise (ValueError "No closing quotation")
      | Escape => Raise (ValueError "No escaped character")
      end
  | String c s' =>
      match st with
      | Space =>
          if whitespace c then
            if negb (String.eqb token "") || quoted
            then ts ← read s' Space Space false "" ; Return (emit quoted token ts)
            else read s' Space escapedstate quoted token
          else if is_escape c then read s' Escape Word quoted token
          else if is_quote c then read s' (Quote c) escapedstate quoted token
          else read s' Word escapedstate quoted (String c EmptyString)
      | Quote q =>
          if Ascii.eqb c q then read s' Word escapedstate true token
          else if is_escape c && escapedquotes q
          then read s' Escape (Quote q) true token
          else read s' (Quote q) escapedstate true (add token c)
      | Escape =>
          let token' :=
            if in_quotes escapedstate && negb (is_escape c)
               && negb (match escapedstate with
                        | Quote q => Ascii.eqb c q
                        | _ => false
                        end)
            then add token "\" else token in
          read s' escapedstate escapedstate quoted (add token' c)
      | Word =>
          if whitespace c then
            if negb (String.eqb token "") || quoted
            then ts ← read s' Space Space false "" ; Return (emit quoted token ts)
            else read s' Space escapedstate quoted token
          else if is_quote c then read s' (Quote c) escapedstate quoted token
          else if is_escape c then read s' Escape Word quoted token
          else read s' Word escapedstate quoted (add token c)
      end
  end.

Definition split (s : string) : result (list string) :=
  read s Space Space false "".

(** *** Notions used to state the properties *)

(** A character that is no whitespace, no quote and not the escape
    character: the lexer appends it to the word it reads. *)
Definition plain (c : ascii) : bool :=
  negb (whitespace c) && negb (is_quote c) && negb (is_escape c).

Fixpoint all_plain (s : string) : bool :=
  match s with
  | EmptyString => true
  | String c s' => plain c && all_plain s'
  end.

(** A non-empty word of plain characters. *)
Definition plain_word (w : string) : bool :=
  negb (String.eqb w "") && all_plain w.

End Shlex.

(** ** Converters

    What [_convert_value] can observe of the object declared as an
    argument's converter: whether it is the type [bool] itself, the
    answers of [inspect.isclass], [issubclass(_, commands.Converter)],
    [getattr(_, "convert", None)] with [inspect.ismethod] and
    [isinstance(_, commands.Converter)], its [__module__] and [__name__],
    and what calling it on the value does. [Context] is the invocation
    context of the host framework, handed to converters untouched. *)

Section Converters.

Variable Context : Type.

Inductive shape : Type :=
| BoolType
    (* the built-in type bool: [converter is bool] *)
| ConverterClass (init : result (Context → string → result val))
    (* a class deriving from commands.Converter: [converter()] and the
       [convert] method of the instance it returns *)
| OtherClass (convert_method : option (Context → string → result val))
    (* any other class; [Some m] when it has a bound [convert] method *)
| ConverterInstance (convert_method : Context → string → result val)
    (* an instance of commands.Converter *)
| PlainObject.
    (* a function or any other object *)

Record converter : Type := Converter {
  conv_shape : shape;
  conv_module : result (option string);   (* converter.__module__ *)
  conv_name : option string;              (* converter.__name__, if any *)
  conv_call : string → result val         (* converter(value) *)
}.

(** The namespace of [discord.ext.commands.converter]:
    [getattr(converters, n)] is [converters n], [None] when the module
    has no such attribute. *)
Variable converters : string → option converter.

(** ** Arguments *)

Inductive Argument : Type :=
| OptionalArgument (converter : converter) (doc : string) (default : val)
| RequiredArgument (converter : converter) (doc : string) (default : val).

Definition arg_converter (a : Argument) : converter :=
  match a with OptionalArgument c _ _ | RequiredArgument c _ _ => c end.
Definition arg_doc (a : Argument) : string :=
  match a with OptionalArgument _ d _ | RequiredArgument _ d _ => d end.
Definition arg_default (a : Argument) : val :=
  match a with OptionalArgument _ _ d | RequiredArgument _ _ d => d end.

(** [isinstance(argument, RequiredArgument)] *)
Definition is_RequiredArgument (a : Argument) : bool :=
  match a with RequiredArgument _ _ _ => true | OptionalArgument _ _ _ => false end.

(** [self.arguments]: the keyword arguments of [__init__], stored as
    they were given, in declaration order. A list that stands for a
    dict has no key twice ([NoDup (map fst arguments)]); the names are
    Python identifiers, as keyword arguments are. *)
Definition Arguments_ : Type := list (string * Argument).

(** [self.arguments.get(key)] *)
Fixpoint get (arguments : Arguments_) (key : string) : option Argument :=
  match arguments with
  | [] => None
  | (name, argument) :: rest =>
      if String.eqb name key then Some argument else get rest key
  end.

(** ** ArgumentConverter *)

(** The method [_convert_to_bool]. *)
Definition _convert_to_bool (value : string) : result bool :=
  let lowered := PyStr.lower value in
  if PyStr.in_tuple lowered ["ja"; "yes"; "y"; "true"; "t"; "1"; "enable"; "on"]
  then Return true
  else if PyStr.in_tuple lowered ["nein"; "no"; "false"; "f"; "0"; "disable"; "off"]
  then Return false
  else Raise (ConversionError (SubjValue value) None).

(** The global names of the module: its imports, [__all__] and its
    six classes. A bare name inside a method is looked up among the
    locals (here [self], [ctx], [converter], [value]), these globals
    and the builtins, never in the class body, so [_convert_to_bool],
    a method of [ArgumentConverter], is not found. *)
Definition module_globals : list string :=
  ["abc"; "shlex"; "inspect"; "commands"; "converters"; "__all__";
   "Argument"; "OptionalArgument"; "RequiredArgument"; "ArgumentConverter";
   "InvalidArgumentValueError"; "UnknownArgumentError"].

Definition lookup_global (name : string) : result unit :=
  if PyStr.in_tuple name module_globals then Return ()
  else Raise (NameError name).

(** Line 131, [return _convert_to_bool(value)]: the callee is the bare
    name, evaluated before the call. *)
Definition call_convert_to_bool (value : string) : result val :=
  _ ← lookup_global "_convert_to_bool";
  b ← _convert_to_bool value;
  Return (PyBool b).

(** Lines 133-140: a converter from a [discord.] module other than the
    converter module is replaced by [<Name>Converter] of the converter
    module. Only a [ValueError] of the [__module__] access is handled. *)
Definition resolve (c : converter) : result converter :=
  match conv_module c with
  | Raise e => if is_ValueError e then Return c else Raise e
  | Return module =>
      match module with
      | Some m =>
          if PyStr.startswith m "discord." && negb (PyStr.endswith m "converter")
          then match conv_name c with
               | None => Raise (AttributeError "__name__")
               | Some n =>
                   match converters (n +:+ "Converter") with
                   | Some c' => Return c'
                   | None => Raise (AttributeError (n +:+ "Converter"))
                   end
               end
          else Return c
      | None => Return c
      end
  end.

(** [except Exception as e: raise commands.ConversionError(converter, e)] *)
Definition wrap {A : Type} (c : converter) (r : result A) : result A :=
  match r with
  | Return a => Return a
  | Raise e =>
      if is_Exception e
      then Raise (ConversionError (SubjConverter (conv_name c)) (Some e))
      else Raise e
  end.

(** Lines 142-155, the first guarded block: [Some r] when it returns or
    raises, [None] when control falls through to line 157. The value of
    a bound [convert] method of a class that is no [commands.Converter]
    is computed and dropped (line 150 has no [return]). *)
Definition invoke_convert (ctx : Context) (c : converter) (value : string)
  : option (result val) :=
  match conv_shape c with
  | ConverterClass init =>
      Some (wrap c (instance ← init; instance ctx value))
  | OtherClass (Some method) =>
      match wrap c (method ctx value) with
      | Return _ => None
      | Raise e => Some (Raise e)
      end
  | OtherClass None | BoolType => None
  | ConverterInstance convert_method => Some (wrap c (convert_method ctx value))
  | PlainObject => None
  end.

(** Lines 142-160 on the resolved converter. *)
Definition invoke (ctx : Context) (c : converter) (value : string) : result val :=
  match invoke_convert ctx c value with
  | Some r => r
  | None => wrap c (conv_call c value)
  end.

Definition _convert_value (ctx : Context) (c : converter) (value : string)
  : result val :=
  match conv_shape c with
  | BoolType => call_convert_to_bool value
  | _ => c' ← resolve c; invoke ctx c' value
  end.

(** Lines 165-185: the loop over the tokens, [converted] being the dict
    built so far. *)
Fixpoint convert_tokens (arguments : Arguments_) (ctx : Context)
    (tokens : list string) (converted : gmap string val)
  : result (gmap string val) :=
  match tokens with
  | [] => Return converted
  | raw_arg :: rest =>
      if negb (PyStr.contains "=" raw_arg) then
        convert_tokens arguments ctx rest converted
      else
        match PyStr.split "=" raw_arg with
        | [] => Raise (ValueError "not enough values to unpack")
        | name :: values =>
            let value := PyStr.join "=" values in
            match get arguments (PyStr.lower name) with
            | None => Raise (UnknownArgumentError name)
            | Some argument =>
                match _convert_value ctx (arg_converter argument) value with
                | Return converted_value =>
                    convert_tokens arguments ctx rest
                      (<[name := converted_value]> converted)
                | Raise e =>
                    if is_ConversionError e
                    then Raise (InvalidArgumentValueError name value)
                    else if is_Exception e
                    then Raise (ConversionError SubjSelf (Some e))
                    else Raise e
                end
            end
        end
  end.

(** [name not in converted] *)
Definition not_in (name : string) (converted : gmap string val) : bool :=
  match converted !! name with Some _ => false | None => true end.

(** Lines 187-193: the loop over [self.arguments.items()]. *)
Fixpoint fill (items : Arguments_) (converted : gmap string val)
  : result (gmap string val) :=
  match items with
  | [] => Return converted
  | (name, argument) :: rest =>
      if is_RequiredArgument argument && not_in name converted
      then Raise (MissingRequiredArgument name)
      else if is_not_None (arg_default argument) && not_in name converted
      then fill rest (<[name := arg_default argument]> converted)
      else fill rest converted
  end.

(** [argstr or ""]: the argument string may be [None]. *)
Definition or_empty (argstr : option string) : string :=
  match argstr with
  | Some s => s
  | None => ""
  end.

Definition convert (arguments : Arguments_) (ctx : Context)
    (argstr : option string) : result (gmap string val) :=
  tokens ← Shlex.split (or_empty argstr);
  converted ← convert_tokens arguments ctx tokens ∅;
  fill arguments converted.

(** [defaults]: the loop of lines 199-203 over the items. *)
Fixpoint defaults_loop (items : Arguments_) (default_arguments : gmap string val)
  : gmap string val :=
  match items with
  | [] => default_arguments
  | (name, argument) :: rest =>
      if is_not_None (arg_default argument)
      then defaults_loop rest (<[name := arg_default argument]> default_arguments)
      else defaults_loop rest default_arguments
  end.

Definition defaults (arguments : Arguments_) : gmap string val :=
  defaults_loop arguments ∅.

(** *** Notions used to state the properties *)

(** The name and the value of a token, lines 168-169:
    [name, *values = raw_arg.split("=")], [value = "=".join(values)]. *)
Definition token_name (raw_arg : string) : string :=
  fst (PyStr.split_parts "=" raw_arg).
Definition token_value (raw_arg : string) : string :=
  PyStr.join "=" (snd (PyStr.split_parts "=" raw_arg)).

(** Lines 171-185 for a token that has a [=], [k] being the rest of the
    loop. *)
Definition step (arguments : Arguments_) (ctx : Context) (t : string)
    (k : gmap string val → result (gmap string val)) (m : gmap string val)
  : result (gmap string val) :=
  match get arguments (PyStr.lower (token_name t)) with
  | None => Raise (UnknownArgumentError (token_name t))
  | Some argument =>
      match _convert_value ctx (arg_converter argument) (token_value t) with
      | Return converted_value => k (<[token_name t := converted_value]> m)
      | Raise e =>
          if is_ConversionError e
          then Raise (InvalidArgumentValueError (token_name t) (token_value t))
          else if is_Exception e
          then Raise (ConversionError SubjSelf (Some e))
          else Raise e
      end
  end.

(** A token the loop converts and stores. *)
Definition converts (arguments : Arguments_) (ctx : Context) (t : string) : Prop :=
  PyStr.contains "=" t = true ∧
  ∃ argument x,
    get arguments (PyStr.lower (token_name t)) = Some argument ∧
    _convert_value ctx (arg_converter argument) (token_value t) = Return x.

(** [name] is the first declared argument that is required and has no
    entry in [converted]. *)
Definition first_missing (arguments : Arguments_) (converted : gmap string val)
    (name : string) : Prop :=
  ∃ pre argument post,
    arguments = pre ++ (name, argument) :: post
    ∧ is_RequiredArgument argument = true
    ∧ converted !! name = None
    ∧ Forall (λ item, is_RequiredArgument item.2 = true →
                      is_Some (converted !! item.1)) pre.

End Converters.

Arguments Converter {Context}.
Arguments BoolType {Context}.
Arguments ConverterClass {Context}.
Arguments OtherClass {Context}.
Arguments ConverterInstance {Context}.
Arguments PlainObject {Context}.
Arguments conv_shape {Context}.
Arguments conv_module {Context}.
Arguments conv_name {Context}.
Arguments conv_call {Context}.
Arguments OptionalArgument {Context}.
Arguments RequiredArgument {Context}.
Arguments arg_converter {Context}.
Arguments arg_doc {Context}.
Arguments arg_default {Context}.
Arguments is_RequiredArgument {Context}.
Arguments get {Context}.
Arguments resolve {Context}.
Arguments wrap {Context A}.
Arguments invoke_convert {Context}.
Arguments invoke {Context}.
Arguments _convert_value {Context}.
Arguments convert_tokens {Context}.
Arguments fill {Context}.
Arguments convert {Context}.
Arguments defaults_loop {Context}.
Arguments defaults {Context}.
Arguments step {Context}.
Arguments converts {Context}.
Arguments first_missing {Context}.

(** ** Converters and registries of the examples *)

(** The built-in [str]: a class of module [builtins] without a [convert]
    attribute; [str(value)] is the value itself. *)
Definition str_type {Context : Type} : converter Context :=
  Converter (OtherClass None) (Return (Some "builtins")) (Some "str")
    (fun value => Return (PyStr value)).

(** The built-in [bool]; [bool(value)] is the truth value of the string. *)
Definition bool_type {Context : Type} : converter Context :=
  Converter BoolType (Return (Some "builtins")) (Some "bool")
    (fun value => Return (PyBool (negb (String.eqb value "")))).

(** [discord.Embed]: a class of module [discord.embeds], for which the
    converter module has no [EmbedConverter]. Called on a string it
    raises a [TypeError]. *)
Definition Embed {Context : Type} : converter Context :=
  Converter (OtherClass None) (Return (Some "discord.embeds")) (Some "Embed")
    (fun _ => Raise (UserException "TypeError")).

(** A function that rejects every value with a [ValueError]. *)
Definition rejecting {Context : Type} : converter Context :=
  Converter PlainObject (Return (Some "__main__")) (Some "rejecting")
    (fun _ => Raise (ValueError "rejected")).

(** A function interrupted while it runs: it raises
    [KeyboardInterrupt], which is no [Exception]. *)
Definition interrupted {Context : Type} : converter Context :=
  Converter PlainObject (Return (Some "__main__")) (Some "interrupted")
    (fun _ => Raise (BaseExceptionOnly "KeyboardInterrupt")).

(** [discord.VoiceChannel], a class of module [discord.channel], and
    the [VoiceChannelConverter] of the converter module; the string its
    [convert] returns stands for the channel found under that name. *)
Definition VoiceChannel {Context : Type} : converter Context :=
  Converter (OtherClass None) (Return (Some "discord.channel"))
    (Some "VoiceChannel") (fun _ => Raise (UserException "TypeError")).



(** The registry of the class docstring, lines 59-73, for any converters
    standing for [int] and [discord.VoiceChannel]. *)
Definition quiz_arguments {Context : Type} (int_ VoiceChannel : converter Context)
  : list (string * Argument Context) :=
  [("turns", RequiredArgument int_ "The number of turns this quiz has." (PyInt 10));
   ("images", OptionalArgument bool_type "(Dis-)allow image questions." (PyBool true));
   ("voice_channel", OptionalArgument VoiceChannel "" PyNone)].

(** * Properties *)

(** The names of a concrete registry are pairwise different. *)
Ltac distinct_names :=
  vm_compute; repeat constructor;
  repeat (let H := fresh in intros [H|H]%elem_of_cons; [discriminate H | revert H]);
  let H := fresh in intros H; inversion H.

(** ** Splitting a token at [=] *)

Section Tokens.

Lemma split_parts_app (sep : ascii) (n v : string) :
  PyStr.contains sep n = false →
  PyStr.split_parts sep (n +:+ String sep v)
  = (n, PyStr.split sep v).
Proof.
  induction n as [|c n IH]; simpl; intros Hn.
  - unfold PyStr.split. destruct (PyStr.split_parts sep v) as [w ws].
    by rewrite Ascii.eqb_refl.
  - destruct (Ascii.eqb c sep) eqn:Hc; [done |].
    by rewrite (IH Hn).
Qed.

Lemma join_split (sep : ascii) (v : string) :
  PyStr.join (String sep "") (PyStr.split sep v) = v.
Proof.
  unfold PyStr.split. induction v as [|c v IH]; [done |].
  cbn [PyStr.split_parts].
  destruct (PyStr.split_parts sep v) as [w ws].
  destruct (Ascii.eqb c sep) eqn:Hc.
  - apply Ascii.eqb_eq in Hc as ->.
    change (PyStr.join (String sep "") ("" :: w :: ws))
      with (String sep (PyStr.join (String sep "") (w :: ws))).
    by rewrite IH.
  - destruct ws as [|w' ws].
    + simpl in *. by rewrite IH.
    + change (PyStr.join (String sep "") (String c w :: w' :: ws))
        with (String c (PyStr.join (String sep "") (w :: w' :: ws))).
      by rewrite IH.
Qed.

Lemma contains_decompose (sep : ascii) (s : string) :
  PyStr.contains sep s = true →
  ∃ n v, s = n +:+ String sep v ∧ PyStr.contains sep n = false.
Proof.
  induction s as [|c s IH]; simpl; [done |].
  destruct (Ascii.eqb c sep) eqn:Hc.
  - apply Ascii.eqb_eq in Hc as ->. intros _. by exists "", s.
  - intros [n [v [-> Hn]]]%IH. exists (String c n), v. simpl. by rewrite Hc.
Qed.

Lemma contains_app (sep : ascii) (n v : string) :
  PyStr.contains sep (n +:+ String sep v) = true.
Proof.
  induction n as [|c n IH]; simpl.
  - by rewrite Ascii.eqb_refl.
  - by destruct (Ascii.eqb c sep).
Qed.

Lemma token_name_app (n v : string) :
  PyStr.contains "=" n = false → token_name (n +:+ "=" +:+ v) = n.
Proof.
  intros Hn. unfold token_name.
  change (n +:+ "=" +:+ v) with (n +:+ String "=" v).
  by rewrite split_parts_app.
Qed.

Lemma token_value_app (n v : string) :
  PyStr.contains "=" n = false → token_value (n +:+ "=" +:+ v) = v.
Proof.
  intros Hn. unfold token_value.
  change (n +:+ "=" +:+ v) with (n +:+ String "=" v).
  rewrite split_parts_app by done. apply join_split.
Qed.

Lemma token_decompose (raw_arg : string) :
  PyStr.contains "=" raw_arg = true →
  raw_arg = token_name raw_arg +:+ "=" +:+ token_value raw_arg
  ∧ PyStr.contains "=" (token_name raw_arg) = false.
Proof.
  intros [n [v [-> Hn]]]%contains_decompose.
  change (n +:+ String "=" v) with (n +:+ "=" +:+ v).
  by rewrite token_name_app, token_value_app.
Qed.

End Tokens.

(** ** The loop over the tokens *)

Section Engine.

Context {Context : Type} (converters : string → option (converter Context)).

Implicit Types (arguments : list (string * Argument Context)) (ctx : Context).
Implicit Types (converted m : gmap string val) (raw_arg t : string).

Lemma convert_tokens_skip arguments ctx t rest m :
  PyStr.contains "=" t = false →
  convert_tokens converters arguments ctx (t :: rest) m
  = convert_tokens converters arguments ctx rest m.
Proof. intros Ht. simpl. by rewrite Ht. Qed.

Lemma convert_tokens_pair arguments ctx t rest m :
  PyStr.contains "=" t = true →
  convert_tokens converters arguments ctx (t :: rest) m
  = step converters arguments ctx t (convert_tokens converters arguments ctx rest) m.
Proof.
  intros Ht. unfold step, token_name, token_value. simpl. rewrite Ht. simpl.
  unfold PyStr.split. by destruct (PyStr.split_parts "=" t) as [name values].
Qed.

Lemma step_bind arguments ctx t k k' m :
  step converters arguments ctx t (λ m', m'' ← k m'; k' m'') m
  = (m'' ← step converters arguments ctx t k m; k' m'').
Proof.
  unfold step. destruct (get _ _) as [argument|]; [|done].
  destruct (_convert_value _ _ _ _) as [x|e]; [done |].
  destruct (is_ConversionError e); [done |]. by destruct (is_Exception e).
Qed.

Lemma convert_tokens_app arguments ctx pre post m :
  convert_tokens converters arguments ctx (pre ++ post) m
  = (m' ← convert_tokens converters arguments ctx pre m;
     convert_tokens converters arguments ctx post m').
Proof.
  revert m. induction pre as [|t pre IH]; intros m; [done |].
  rewrite <- app_comm_cons.
  destruct (PyStr.contains "=" t) eqn:Ht.
  - rewrite !convert_tokens_pair by done. rewrite <- step_bind.
    unfold step. destruct (get _ _); [|done].
    destruct (_convert_value _ _ _ _); [apply IH | done].
  - rewrite !convert_tokens_skip by done. apply IH.
Qed.

Lemma convert_tokens_converts arguments ctx t :
  converts converters arguments ctx t →
  ∃ x, ∀ rest m,
    convert_tokens converters arguments ctx (t :: rest) m
    = convert_tokens converters arguments ctx rest (<[token_name t := x]> m).
Proof.
  intros [Ht (argument & x & Hget & Hx)]. exists x. intros rest m.
  rewrite convert_tokens_pair by done. unfold step. by rewrite Hget, Hx.
Qed.

Lemma convert_tokens_Return_inv arguments ctx t rest m r :
  PyStr.contains "=" t = true →
  convert_tokens converters arguments ctx (t :: rest) m = Return r →
  ∃ argument x,
    get arguments (PyStr.lower (token_name t)) = Some argument ∧
    _convert_value converters ctx (arg_converter argument) (token_value t)
    = Return x ∧
    convert_tokens converters arguments ctx rest (<[token_name t := x]> m)
    = Return r.
Proof.
  intros Ht. rewrite convert_tokens_pair by done. unfold step.
  destruct (get _ _) as [argument|]; [|done].
  destruct (_convert_value _ _ _ _) as [x|e] eqn:Hx.
  - intros Hr. by exists argument, x.
  - destruct (is_ConversionError e); [done |]. by destruct (is_Exception e).
Qed.

(** Tokens with other names leave the entry of a name alone. *)
Lemma convert_tokens_lookup_other arguments ctx name post m r :
  Forall (λ t, PyStr.contains "=" t = true → token_name t ≠ name) post →
  convert_tokens converters arguments ctx post m = Return r →
  r !! name = m !! name.
Proof.
  intros Hpost. revert m.
  induction Hpost as [|t post Ht _ IH]; intros m.
  - by intros [= ->].
  - destruct (PyStr.contains "=" t) eqn:Heq.
    + intros (argument & x & _ & _ & Hr)%convert_tokens_Return_inv; [|done].
      rewrite (IH _ Hr). apply lookup_insert_ne. by apply Ht.
    + rewrite convert_tokens_skip by done. apply IH.
Qed.

(** The second loop only adds entries. *)
Lemma fill_lookup_Some (items : list (string * Argument Context)) m r name x :
  fill items m = Return r → m !! name = Some x → r !! name = Some x.
Proof.
  revert m. induction items as [|[n a] items IH]; intros m; simpl.
  - by intros [= ->].
  - destruct (is_RequiredArgument a && not_in n m); [done |].
    destruct (is_not_None (arg_default a) && not_in n m) eqn:Hd; [|apply IH].
    intros Hr Hm. apply (IH _ Hr).
    apply andb_true_iff in Hd as [_ Hn]. unfold not_in in Hn.
    destruct (decide (n = name)) as [->|Hne].
    + by rewrite Hm in Hn.
    + by rewrite lookup_insert_ne.
Qed.

Lemma fill_Raise_inv (items : list (string * Argument Context)) m e :
  fill items m = Raise e → ∃ name, e = MissingRequiredArgument name.
Proof.
  revert m. induction items as [|[n a] items IH]; intros m; simpl; [done |].
  destruct (is_RequiredArgument a && not_in n m).
  - intros [= <-]. by exists n.
  - destruct (is_not_None (arg_default a) && not_in n m); apply IH.
Qed.

End Engine.

(** ** Tokens: dropping, splitting, unknown names, repeated names, order *)

Section TokenClaims.

Context {Context : Type} (converters : string → option (converter Context)).

Implicit Types (arguments : list (string * Argument Context)) (ctx : Context).
Implicit Types (converted m : gmap string val) (raw_arg t : string).

(** C9: a token without [=] is dropped without an error and without a
    look at the registry: wherever it stands among the tokens, the loop
    and the whole conversion give what they give without it; for every
    registry the input ["foo turns=2"] gives the result of ["turns=2"],
    whether or not [foo] is declared. *)
Theorem token_without_separator_is_dropped arguments ctx :
  (∀ pre t post m,
     PyStr.contains "=" t = false →
     convert_tokens converters arguments ctx (pre ++ t :: post) m
     = convert_tokens converters arguments ctx (pre ++ post) m)
  ∧ (∀ argstr argstr' pre t post,
       PyStr.contains "=" t = false →
       Shlex.split (or_empty argstr) = Return (pre ++ t :: post) →
       Shlex.split (or_empty argstr') = Return (pre ++ post) →
       convert converters arguments ctx argstr
       = convert converters arguments ctx argstr')
  ∧ convert converters arguments ctx (Some "foo turns=2")
    = convert converters arguments ctx (Some "turns=2").
Proof.
  assert (∀ pre t post m,
     PyStr.contains "=" t = false →
     convert_tokens converters arguments ctx (pre ++ t :: post) m
     = convert_tokens converters arguments ctx (pre ++ post) m) as Hdrop.
  { intros pre t post m Ht. rewrite !convert_tokens_app.
    destruct (convert_tokens converters arguments ctx pre m); [|done].
    simpl. by rewrite Ht. }
  split; [exact Hdrop |]. split.
  - intros argstr argstr' pre t post Ht Hs Hs'. unfold convert.
    rewrite Hs, Hs'. simpl. by rewrite Hdrop.
  - unfold convert. simpl. reflexivity.
Qed.

(** C8: a token with one or more [=] is split at the first one: for a
    name without [=], the token [name=value] has this name and this
    value, later [=] included, and the value is what the converter of
    the argument receives; every token with a [=] has this form. *)
Theorem token_splits_on_first_separator arguments ctx :
  (∀ n v,
     PyStr.contains "=" n = false →
     PyStr.split "=" (n +:+ "=" +:+ v) = n :: PyStr.split "=" v
     ∧ token_name (n +:+ "=" +:+ v) = n
     ∧ token_value (n +:+ "=" +:+ v) = v)
  ∧ (∀ raw_arg,
       PyStr.contains "=" raw_arg = true →
       raw_arg = token_name raw_arg +:+ "=" +:+ token_value raw_arg
       ∧ PyStr.contains "=" (token_name raw_arg) = false)
  ∧ (∀ n v rest m,
       PyStr.contains "=" n = false →
       convert_tokens converters arguments ctx ((n +:+ "=" +:+ v) :: rest) m
       = match get arguments (PyStr.lower n) with
         | None => Raise (UnknownArgumentError n)
         | Some argument =>
             match _convert_value converters ctx (arg_converter argument) v with
             | Return x =>
                 convert_tokens converters arguments ctx rest (<[n := x]> m)
             | Raise e =>
                 if is_ConversionError e
                 then Raise (InvalidArgumentValueError n v)
                 else if is_Exception e
                 then Raise (ConversionError SubjSelf (Some e))
                 else Raise e
             end
         end).
Proof.
  split; [|split].
  - intros n v Hn. split; [|split].
    + unfold PyStr.split at 1.
      change (n +:+ "=" +:+ v) with (n +:+ String "=" v).
      by rewrite split_parts_app.
    + by apply token_name_app.
    + by apply token_value_app.
  - apply token_decompose.
  - intros n v rest m Hn. rewrite convert_tokens_pair.
    + unfold step. by rewrite token_name_app, token_value_app.
    + apply (contains_app "=" n v).
Qed.


(** C10: when a name is given by several tokens with the same spelling
    and the conversion succeeds, the mapping holds for this name the
    converted value of its last token, both after the loop and in the
    final result. *)
Theorem last_occurrence_wins arguments ctx pre t post m converted final :
  PyStr.contains "=" t = true →
  Forall (λ t', PyStr.contains "=" t' = true → token_name t' ≠ token_name t) post →
  convert_tokens converters arguments ctx (pre ++ t :: post) m = Return converted →
  fill arguments converted = Return final →
  ∃ argument x,
    get arguments (PyStr.lower (token_name t)) = Some argument
    ∧ _convert_value converters ctx (arg_converter argument) (token_value t)
      = Return x
    ∧ converted !! token_name t = Some x
    ∧ final !! token_name t = Some x.
Proof.
  intros Ht Hpost Hloop Hfill.
  rewrite convert_tokens_app in Hloop.
  destruct (convert_tokens converters arguments ctx pre m) as [m'|e]; [|done].
  simpl in Hloop.
  apply convert_tokens_Return_inv in Hloop as (argument & x & Hget & Hx & Hrest);
    [|done].
  exists argument, x. split; [done |]. split; [done |].
  assert (converted !! token_name t = Some x) as Hconv.
  { rewrite (convert_tokens_lookup_other _ _ _ _ _ _ _ Hpost Hrest).
    apply lookup_insert_eq. }
  split; [done |]. by apply (fill_lookup_Some _ _ _ _ _ Hfill).
Qed.

Lemma converts_swap arguments ctx t1 t2 rest m :
  converts converters arguments ctx t1 →
  converts converters arguments ctx t2 →
  token_name t1 ≠ token_name t2 →
  convert_tokens converters arguments ctx (t1 :: t2 :: rest) m
  = convert_tokens converters arguments ctx (t2 :: t1 :: rest) m.
Proof.
  intros [x1 H1]%convert_tokens_converts [x2 H2]%convert_tokens_converts Hne.
  rewrite H1, H2, H2, H1. f_equal. by apply insert_insert_ne.
Qed.

Lemma convert_tokens_Permutation arguments ctx tokens tokens' :
  tokens ≡ₚ tokens' →
  Forall (converts converters arguments ctx) tokens →
  NoDup (token_name <$> tokens) →
  ∀ m, convert_tokens converters arguments ctx tokens m
       = convert_tokens converters arguments ctx tokens' m.
Proof.
  induction 1 as [|t l l' Hperm IH|t1 t2 l|l l' l'' Hp1 IH1 Hp2 IH2];
    intros Hall Hnodup m.
  - done.
  - apply Forall_cons in Hall as [Ht Hall].
    rewrite fmap_cons in Hnodup. apply NoDup_cons in Hnodup as [_ Hnodup].
    destruct (convert_tokens_converts _ _ _ _ Ht) as [x Hx].
    rewrite !Hx. by apply IH.
  - apply Forall_cons in Hall as [Ht2 Hall].
    apply Forall_cons in Hall as [Ht1 Hall].
    rewrite !fmap_cons in Hnodup. apply NoDup_cons in Hnodup as [Hne _].
    apply converts_swap; [done | done |].
    intros Heq. apply Hne. rewrite Heq. apply list_elem_of_here.
  - rewrite IH1 by done. apply IH2.
    + by rewrite <- Hp1.
    + by rewrite <- Hp1.
Qed.

(** C5: order independence. For tokens [name=value] with pairwise
    different names, all declared and all with values that convert,
    every permutation of the tokens gives the same result, for the loop
    and for the whole conversion. *)
Theorem order_independence arguments ctx tokens tokens' :
  tokens ≡ₚ tokens' →
  Forall (converts converters arguments ctx) tokens →
  NoDup (token_name <$> tokens) →
  (∀ m, convert_tokens converters arguments ctx tokens m
        = convert_tokens converters arguments ctx tokens' m)
  ∧ (∀ argstr argstr',
       Shlex.split (or_empty argstr) = Return tokens →
       Shlex.split (or_empty argstr') = Return tokens' →
       convert converters arguments ctx argstr
       = convert converters arguments ctx argstr').
Proof.
  intros Hperm Hall Hnodup.
  pose proof (convert_tokens_Permutation _ _ _ _ Hperm Hall Hnodup) as Hloop.
  split; [exact Hloop |].
  intros argstr argstr' Hs Hs'. unfold convert. rewrite Hs, Hs'. simpl.
  by rewrite Hloop.
Qed.

End TokenClaims.

(** ** Required arguments and defaults *)

Section FillClaims.

Context {Context : Type}.

Implicit Types (arguments items : list (string * Argument Context)).
Implicit Types (converted m : gmap string val).

Lemma is_not_None_true (v : val) : is_not_None v = true ↔ v ≠ PyNone.
Proof. by destruct v. Qed.

Lemma not_in_true name m : not_in name m = true ↔ m !! name = None.
Proof. unfold not_in. by destruct (m !! name). Qed.

Lemma not_in_insert_ne name n x m :
  n ≠ name → not_in name (<[n := x]> m) = not_in name m.
Proof. intros Hne. unfold not_in. by rewrite lookup_insert_ne. Qed.

Lemma not_in_insert_agree name n x m m' :
  not_in name m = not_in name m' →
  not_in name (<[n := x]> m) = not_in name (<[n := x]> m').
Proof.
  intros Hagree. destruct (decide (n = name)) as [->|Hne].
  - unfold not_in. by rewrite !lookup_insert_eq.
  - by rewrite !not_in_insert_ne.
Qed.

(** The error of the second loop depends only on which of the declared
    names have an entry. *)
Lemma fill_Raise_agree items m m' e :
  (∀ name, name ∈ items.*1 → not_in name m = not_in name m') →
  fill items m = Raise e ↔ fill items m' = Raise e.
Proof.
  revert m m'. induction items as [|[n a] items IH]; intros m m' Hagree; [done |].
  simpl. rewrite <- (Hagree n) by (simpl; apply list_elem_of_here).
  destruct (is_RequiredArgument a && not_in n m); [done |].
  assert (∀ name, name ∈ items.*1 → not_in name m = not_in name m') as Hrest.
  { intros name Hname. apply Hagree. simpl. by apply list_elem_of_further. }
  destruct (is_not_None (arg_default a) && not_in n m); apply IH; [|done].
  intros name Hname. apply not_in_insert_agree. by apply Hrest.
Qed.

Lemma fill_Raise_cons_other n a items m e :
  n ∉ items.*1 →
  (is_RequiredArgument a && not_in n m) = false →
  fill ((n, a) :: items) m = Raise e ↔ fill items m = Raise e.
Proof.
  intros Hn Hreq. simpl. rewrite Hreq.
  destruct (is_not_None (arg_default a) && not_in n m); [|done].
  apply fill_Raise_agree. intros name Hname. apply not_in_insert_ne.
  by intros ->.
Qed.

(** C3, as the code has it: once the tokens are consumed into
    [converted], the conversion fails with [MissingRequiredArgument name]
    exactly when [name] is the first declared argument that is required
    and has no entry under its declared name in [converted]; this is the
    only error of the stage, and the default of a required argument plays
    no part: absent, it fails with or without a default. *)
Theorem missing_required_argument_iff arguments converted :
  NoDup arguments.*1 →
  (∀ name,
     fill arguments converted = Raise (MissingRequiredArgument name)
     ↔ first_missing arguments converted name)
  ∧ (∀ e, fill arguments converted = Raise e →
          ∃ name, e = MissingRequiredArgument name)
  ∧ (∀ name argument,
       (name, argument) ∈ arguments →
       is_RequiredArgument argument = true →
       converted !! name = None →
       ∃ name', fill arguments converted = Raise (MissingRequiredArgument name')).
Proof.
  intros Hnodup.
  assert (∀ name,
     fill arguments converted = Raise (MissingRequiredArgument name)
     ↔ first_missing arguments converted name) as Hiff.
  { induction arguments as [|[n a] items IH]; intros name.
    - split; [done |]. intros (pre & argument & post & Heq & _).
      by destruct pre.
    - apply NoDup_cons in Hnodup as [Hn Hnodup]. specialize (IH Hnodup).
      destruct (is_RequiredArgument a && not_in n converted) eqn:Hreq.
      + simpl. rewrite Hreq.
        apply andb_true_iff in Hreq as [Ha Hnot%not_in_true]. split.
        * intros [= <-]. by exists [], a, items.
        * intros (pre & argument & post & Heq & _ & _ & Hpre).
          destruct pre as [|item pre]; simpl in Heq.
          -- by injection Heq as -> _ _.
          -- injection Heq as <- _. apply Forall_cons in Hpre as [Hitem _].
             destruct (Hitem Ha) as [x Hx]. simpl in Hx. congruence.
      + rewrite fill_Raise_cons_other by done. rewrite IH. split.
        * intros (pre & argument & post & -> & Harg & Hnone & Hpre).
          exists ((n, a) :: pre), argument, post.
          split; [done |]. split; [done |]. split; [done |].
          apply Forall_cons. split; [|done]. simpl. intros Ha.
          rewrite Ha in Hreq. simpl in Hreq.
          unfold not_in in Hreq. by destruct (converted !! n).
        * intros (pre & argument & post & Heq & Harg & Hnone & Hpre).
          destruct pre as [|item pre]; simpl in Heq.
          -- injection Heq as <- <- _.
             apply not_in_true in Hnone. by rewrite Harg, Hnone in Hreq.
          -- injection Heq as _ ->. apply Forall_cons in Hpre as [_ Hpre].
             by exists pre, argument, post. }
  split; [exact Hiff |]. split; [apply fill_Raise_inv |].
  intros name argument Hin Harg Hnone. clear Hiff.
  revert converted Hnone Hnodup.
  induction arguments as [|[n a] items IH]; intros converted Hnone Hnodup.
  - by apply elem_of_nil in Hin.
  - apply NoDup_cons in Hnodup as [Hn Hnodup].
    simpl. destruct (is_RequiredArgument a && not_in n converted) eqn:Hreq.
    + by exists n.
    + apply elem_of_cons in Hin as [[= <- <-]|Hin].
      * apply not_in_true in Hnone. by rewrite Harg, Hnone in Hreq.
      * destruct (is_not_None (arg_default a) && not_in n converted) eqn:Hd;
          [|by apply IH].
        apply IH; [done | | done].
        rewrite lookup_insert_ne; [done |]. intros ->.
        apply Hn, list_elem_of_fmap. by exists (name, argument).
Qed.

(** A dict has one value for a key. *)
Lemma declared_once arguments name argument argument' :
  NoDup arguments.*1 →
  (name, argument) ∈ arguments → (name, argument') ∈ arguments →
  argument = argument'.
Proof.
  intros Hnodup Hin Hin'.
  apply (elem_of_list_to_map (M := gmap string)) in Hin, Hin'; [|done..].
  congruence.
Qed.

Lemma defaults_loop_lookup items acc name d :
  NoDup items.*1 →
  defaults_loop items acc !! name = Some d
  ↔ (∃ argument, (name, argument) ∈ items
                 ∧ arg_default argument = d ∧ d ≠ PyNone)
    ∨ ((∀ argument, (name, argument) ∈ items → arg_default argument = PyNone)
       ∧ acc !! name = Some d).
Proof.
  revert acc. induction items as [|[n a] items IH]; intros acc Hnodup; simpl.
  - split; [intros Hacc; right; split; [|done] | by intros [(? & []%elem_of_nil & _)|[_ ?]]].
    by intros ? ?%elem_of_nil.
  - apply NoDup_cons in Hnodup as [Hn Hnodup].
    assert (∀ argument, (n, argument) ∈ items → False) as Hfresh.
    { intros argument Hin. apply Hn.
      apply list_elem_of_fmap. by exists (n, argument). }
    destruct (is_not_None (arg_default a)) eqn:Hd; rewrite IH by done.
    + apply is_not_None_true in Hd. split.
      * intros [(argument & Hin & Hdef & Hne)|[Hall Hacc]].
        -- left. exists argument. split; [by apply list_elem_of_further | done].
        -- destruct (decide (n = name)) as [->|Hne].
           ++ rewrite lookup_insert_eq in Hacc. injection Hacc as <-.
              left. exists a. split; [apply list_elem_of_here | done].
           ++ rewrite lookup_insert_ne in Hacc by done. right. split; [|done].
              intros argument [[= -> ->]|Hin]%elem_of_cons; [done | by apply Hall].
      * intros [(argument & [[= -> ->]|Hin]%elem_of_cons & Hdef & Hne)|[Hall Hacc]].
        -- right. split; [intros ? ?; by exfalso; eapply Hfresh |].
           rewrite lookup_insert_eq. by rewrite Hdef.
        -- left. by exists argument.
        -- right. split; [intros ? ?; apply Hall; by apply list_elem_of_further |].
           rewrite lookup_insert_ne; [done |]. intros ->.
           apply Hd, (Hall a), list_elem_of_here.
    + assert (arg_default a = PyNone) as Hnone by (by destruct (arg_default a)).
      split.
      * intros [(argument & Hin & Hdef & Hne)|[Hall Hacc]].
        -- left. exists argument. split; [by apply list_elem_of_further | done].
        -- right. split; [|done].
           intros argument [[= -> ->]|Hin]%elem_of_cons; [done | by apply Hall].
      * intros [(argument & [[= -> ->]|Hin]%elem_of_cons & Hdef & Hne)|[Hall Hacc]].
        -- congruence.
        -- left. by exists argument.
        -- right. split; [|done].
           intros ? ?; apply Hall; by apply list_elem_of_further.
Qed.

(** C6: [defaults] is a function of the registry alone; it maps a name to
    a value exactly when the argument declared under this name has this
    value as its default and the value is not [None], so the arguments
    whose default is [None] have no entry. For the registry of the class
    docstring it is [{turns: 10, images: True}]. *)
Theorem defaults_are_the_declared_defaults :
  (∀ arguments name d,
     NoDup arguments.*1 →
     defaults arguments !! name = Some d
     ↔ ∃ argument, (name, argument) ∈ arguments
                   ∧ arg_default argument = d ∧ d ≠ PyNone)
  ∧ (∀ arguments name argument,
       NoDup arguments.*1 →
       (name, argument) ∈ arguments →
       arg_default argument = PyNone →
       defaults arguments !! name = None)
  ∧ (∀ int_ VoiceChannel : converter Context,
       defaults (quiz_arguments int_ VoiceChannel)
       = {[ "turns" := PyInt 10; "images" := PyBool true ]}).
Proof.
  assert (∀ arguments name d,
     NoDup arguments.*1 →
     defaults arguments !! name = Some d
     ↔ ∃ argument, (name, argument) ∈ arguments
                   ∧ arg_default argument = d ∧ d ≠ PyNone) as Hiff.
  { intros arguments name d Hnodup. unfold defaults.
    rewrite defaults_loop_lookup by done. split; [|by left].
    intros [?|[_ Hempty]]; [done |]. by rewrite lookup_empty in Hempty. }
  split; [exact Hiff |]. split.
  - intros arguments name argument Hnodup Hin Hnone.
    destruct (defaults arguments !! name) as [d|] eqn:Hd; [|done].
    apply Hiff in Hd as (argument' & Hin' & Hdef & Hne); [|done].
    assert (argument' = argument) as ->; [|congruence].
    by apply (declared_once arguments name).
  - intros int_ VoiceChannel. apply map_eq. intros name.
    unfold defaults, quiz_arguments. simpl. reflexivity.
Qed.

End FillClaims.

(** ** Failures of a conversion *)

Section DispatchClaims.

Context {Context : Type} (converters : string → option (converter Context)).

Implicit Types (arguments : list (string * Argument Context)) (ctx : Context).
Implicit Types (c : converter Context) (m : gmap string val) (t : string).

(** The method [_convert_to_bool] itself knows the two sets of
    literals. *)
Lemma convert_to_bool_literals :
  Forall (λ v, _convert_to_bool v = Return true)
    ["ja"; "yes"; "y"; "true"; "t"; "1"; "enable"; "on"; "TRUE"; "On"; "Ja"]
  ∧ Forall (λ v, _convert_to_bool v = Return false)
      ["nein"; "no"; "false"; "f"; "0"; "disable"; "off"; "OFF"; "Nein"]
  ∧ _convert_to_bool "maybe" = Raise (ConversionError (SubjValue "maybe") None).
Proof. repeat split; repeat constructor. Qed.



Lemma convert_value_not_bool ctx c value :
  conv_shape c ≠ BoolType →
  _convert_value converters ctx c value
  = (c' ← resolve converters c; invoke ctx c' value).
Proof. intros Hshape. unfold _convert_value. by destruct (conv_shape c). Qed.


(** C1, what the code does for an argument declared with [bool]: the
    call at line 131 names [_convert_to_bool] without [self.], so every
    value, a literal of the two sets or not, ends in a [NameError] that
    [convert] reports as [ConversionError(self, e)]. *)
Theorem bool_argument_raises_NameError arguments ctx t rest m argument :
  PyStr.contains "=" t = true →
  get arguments (PyStr.lower (token_name t)) = Some argument →
  conv_shape (arg_converter argument) = BoolType →
  convert_tokens converters arguments ctx (t :: rest) m
  = Raise (ConversionError SubjSelf (Some (NameError "_convert_to_bool"))).
Proof.
  intros Ht Hget Hshape.
  rewrite convert_tokens_pair by done. unfold step. rewrite Hget.
  unfold _convert_value. by rewrite Hshape.
Qed.

End DispatchClaims.

(** ** Concrete inputs *)

(** C9 at tokens: ["foo"] is dropped before ["turns=2"]. *)
Lemma token_without_separator_is_dropped_witness :
  PyStr.contains "=" "foo" = false
  ∧ convert_tokens (λ _, None)
      [("turns", RequiredArgument (Context := unit) str_type "" PyNone)] ()
      ([] ++ "foo" :: ["turns=2"]) ∅
    = Return {[ "turns" := PyStr "2" ]}.
Proof.
  split; [reflexivity |].
  rewrite (proj1 (token_without_separator_is_dropped (λ _, None)
    [("turns", RequiredArgument (Context := unit) str_type "" PyNone)] ())
    [] "foo" ["turns=2"] ∅ eq_refl).
  reflexivity.
Defined.

(** C8 at [path=a=b]: the value handed to [str] is ["a=b"]. *)
Lemma token_splits_on_first_separator_witness :
  PyStr.contains "=" "path" = false
  ∧ PyStr.split "=" "path=a=b" = ["path"; "a"; "b"]
  ∧ token_value "path=a=b" = "a=b"
  ∧ convert (λ _, None)
      [("path", OptionalArgument (Context := unit) str_type "" PyNone)] ()
      (Some "path=a=b")
    = Return {[ "path" := PyStr "a=b" ]}.
Proof.
  pose proof (token_splits_on_first_separator (λ _, None)
    [("path", OptionalArgument (Context := unit) str_type "" PyNone)] ())
    as (Hsplit & _ & Hloop).
  destruct (Hsplit "path" "a=b" eq_refl) as (Hs & _ & Hv).
  split; [reflexivity |]. split; [exact Hs |]. split; [exact Hv |].
  change (convert _ ?args _ _)
    with (converted ← convert_tokens (λ _, None) args ()
                        [("path" +:+ "=" +:+ "a=b")] ∅;
          fill args converted).
  rewrite (Hloop "path" "a=b" [] ∅ eq_refl). reflexivity.
Defined.


(** C10 at ["turns=2 turns=3"]: the entry of [turns] is the value of the
    second token. *)
Lemma last_occurrence_wins_witness :
  ∃ argument x,
    get [("turns", RequiredArgument (Context := unit) str_type "" PyNone)]
      (PyStr.lower (token_name "turns=3")) = Some argument
    ∧ _convert_value (λ _, None) () (arg_converter argument) (token_value "turns=3")
      = Return x
    ∧ ({[ "turns" := PyStr "3" ]} : gmap string val) !! token_name "turns=3" = Some x
    ∧ ({[ "turns" := PyStr "3" ]} : gmap string val) !! token_name "turns=3" = Some x.
Proof.
  apply (last_occurrence_wins (λ _, None)
    [("turns", RequiredArgument (Context := unit) str_type "" PyNone)] ()
    ["turns=2"] "turns=3" [] ∅).
  - reflexivity.
  - constructor.
  - reflexivity.
  - reflexivity.
Defined.

(** C5 at ["a=1 b=2"] and ["b=2 a=1"]. *)
Lemma order_independence_witness :
  convert (λ _, None)
    [("a", OptionalArgument (Context := unit) str_type "" PyNone);
     ("b", OptionalArgument str_type "" PyNone)] () (Some "a=1 b=2")
  = convert (λ _, None)
      [("a", OptionalArgument (Context := unit) str_type "" PyNone);
       ("b", OptionalArgument str_type "" PyNone)] () (Some "b=2 a=1").
Proof.
  apply (proj2 (order_independence (λ _, None)
    [("a", OptionalArgument (Context := unit) str_type "" PyNone);
     ("b", OptionalArgument str_type "" PyNone)] ()
    ["a=1"; "b=2"] ["b=2"; "a=1"]
    (perm_swap "b=2" "a=1" [])
    ltac:(repeat constructor; eexists _, _; split; reflexivity)
    ltac:(vm_compute; repeat constructor;
          [intros [H|H]%elem_of_cons; [discriminate H | inversion H]
          | intros H; inversion H]))); reflexivity.
Defined.

(** C3 at the registry of the docstring and no converted token:
    [turns] is the first missing required argument. *)
Lemma missing_required_argument_iff_witness :
  fill (quiz_arguments (Context := unit) str_type Embed) ∅
  = Raise (MissingRequiredArgument "turns")
  ↔ first_missing (quiz_arguments (Context := unit) str_type Embed) ∅ "turns".
Proof.
  apply (proj1 (missing_required_argument_iff
    (quiz_arguments (Context := unit) str_type Embed) ∅
    ltac:(vm_compute; repeat constructor;
          repeat (intros [H|H]%elem_of_cons; [discriminate H | revert H]);
          intros H; inversion H))).
Defined.

(** C3 as stated fails: [turns] is required, has the default [10], is
    absent from the input, and the conversion fails for it. *)
Lemma required_with_default_counterexample :
  ¬ (∀ name argument,
       get (quiz_arguments (Context := unit) str_type Embed) name = Some argument →
       is_RequiredArgument argument = true →
       arg_default argument ≠ PyNone →
       convert (λ _, None) (quiz_arguments str_type Embed) () (Some "")
       ≠ Raise (MissingRequiredArgument name)).
Proof.
  intros Hclaim.
  apply (Hclaim "turns"
           (RequiredArgument str_type "The number of turns this quiz has." (PyInt 10)));
    [reflexivity | reflexivity | discriminate | reflexivity].
Qed.

(** C6 at the registry of the docstring. *)
Lemma defaults_are_the_declared_defaults_witness :
  defaults (quiz_arguments (Context := unit) str_type Embed) !! "turns"
  = Some (PyInt 10)
  ↔ ∃ argument,
      ("turns", argument) ∈ quiz_arguments (Context := unit) str_type Embed
      ∧ arg_default argument = PyInt 10 ∧ PyInt 10 ≠ PyNone.
Proof.
  apply (proj1 (defaults_are_the_declared_defaults (Context := unit))
    (quiz_arguments str_type Embed) "turns" (PyInt 10)
    ltac:(vm_compute; repeat constructor;
          repeat (intros [H|H]%elem_of_cons; [discriminate H | revert H]);
          intros H; inversion H)).
Defined.



(** C1 at [images=true] for the registry of the docstring. *)
Lemma bool_argument_raises_NameError_witness :
  convert_tokens (λ _, None) (quiz_arguments (Context := unit) str_type Embed) ()
    ["images=true"] ∅
  = Raise (ConversionError SubjSelf (Some (NameError "_convert_to_bool"))).
Proof.
  apply (bool_argument_raises_NameError (λ _, None)
    (quiz_arguments (Context := unit) str_type Embed) () "images=true" [] ∅
    (OptionalArgument bool_type "(Dis-)allow image questions." (PyBool true)));
    reflexivity.
Defined.

(** C2, what the code does when only the case of a name changes: the
    lookup finds the argument for [Name] as for [name], but the value is
    stored under the name as typed, so a required [name] given as
    [Name=5] is then reported missing, and an optional one gets its
    default beside the entry [Name]. *)
Theorem name_case_changes_the_result :
  convert (λ _, None)
    [("name", RequiredArgument (Context := unit) str_type "" PyNone)] ()
    (Some "name=5")
  = Return {[ "name" := PyStr "5" ]}
  ∧ convert (λ _, None)
      [("name", RequiredArgument (Context := unit) str_type "" PyNone)] ()
      (Some "Name=5")
    = Raise (MissingRequiredArgument "name")
  ∧ convert (λ _, None)
      [("name", OptionalArgument (Context := unit) str_type "" (PyStr "d"))] ()
      (Some "Name=5")
    = Return {[ "Name" := PyStr "5"; "name" := PyStr "d" ]}.
Proof.
  split; [|split].
  - reflexivity.
  - reflexivity.
  - vm_compute. reflexivity.
Qed.

(** * Further properties of the code *)

(** ** Strings *)

Lemma string_app_assoc (s1 s2 s3 : string) :
  (s1 +:+ s2) +:+ s3 = s1 +:+ (s2 +:+ s3).
Proof.
  induction s1 as [|c s1 IH]; [done |].
  change (String c ((s1 +:+ s2) +:+ s3) = String c (s1 +:+ (s2 +:+ s3))).
  by rewrite IH.
Qed.

Lemma string_app_nil_r (s : string) : s +:+ "" = s.
Proof.
  induction s as [|c s IH]; [done |].
  change (String c (s +:+ "") = String c s). by rewrite IH.
Qed.

Lemma split_no_separator (sep : ascii) (w : string) :
  PyStr.contains sep w = false → PyStr.split_parts sep w = (w, []).
Proof.
  induction w as [|c w IH]; [done |]. cbn.
  destruct (Ascii.eqb c sep); [done |]. intros Hw. by rewrite (IH Hw).
Qed.

Lemma split_pieces (sep : ascii) (s : string) :
  Forall (λ w, PyStr.contains sep w = false) (PyStr.split sep s).
Proof.
  unfold PyStr.split. induction s as [|c s IH]; cbn.
  - by repeat constructor.
  - destruct (PyStr.split_parts sep s) as [w ws].
    apply Forall_cons in IH as [Hw Hws].
    destruct (Ascii.eqb c sep) eqn:Hc.
    + by repeat constructor.
    + constructor; [|done]. cbn. by rewrite Hc.
Qed.

(** [sep.join(s.split(sep))] is [s]; the pieces of [s.split(sep)] are
    free of [sep]; and a non-empty list of pieces free of [sep] is what
    [split] gives back from their [join]. *)
Theorem split_join_round_trip (sep : ascii) :
  (∀ s, PyStr.join (String sep "") (PyStr.split sep s) = s)
  ∧ (∀ s, Forall (λ w, PyStr.contains sep w = false) (PyStr.split sep s))
  ∧ (∀ l, l ≠ [] →
          Forall (λ w, PyStr.contains sep w = false) l →
          PyStr.split sep (PyStr.join (String sep "") l) = l).
Proof.
  split; [apply join_split |]. split; [apply split_pieces |].
  intros l Hl Hall. induction Hall as [|w ws Hw Hws IH]; [done |].
  destruct ws as [|w' ws].
  - cbn. unfold PyStr.split. by rewrite split_no_separator.
  - change (PyStr.join (String sep "") (w :: w' :: ws))
      with (w +:+ String sep (PyStr.join (String sep "") (w' :: ws))).
    unfold PyStr.split at 1. rewrite split_parts_app by done.
    by rewrite IH.
Qed.

Lemma split_join_round_trip_witness :
  PyStr.split "=" (PyStr.join "=" ["path"; "a"; "b"]) = ["path"; "a"; "b"].
Proof.
  apply (proj2 (proj2 (split_join_round_trip "="))); [discriminate |].
  repeat constructor.
Defined.

Lemma lower_char_idemp (c : ascii) :
  PyStr.lower_char (PyStr.lower_char c) = PyStr.lower_char c.
Proof.
  destruct c as [[] [] [] [] [] [] [] []]; reflexivity.
Qed.

Lemma lower_idemp (s : string) : PyStr.lower (PyStr.lower s) = PyStr.lower s.
Proof.
  induction s as [|c s IH]; [done |]. cbn. by rewrite lower_char_idemp, IH.
Qed.

Lemma in_tuple_elem_of (x : string) (t : list string) :
  PyStr.in_tuple x t = true ↔ x ∈ t.
Proof.
  unfold PyStr.in_tuple. rewrite existsb_exists. split.
  - intros (y & Hy%list_elem_of_In & ->%String.eqb_eq). done.
  - intros Hx. exists x. split; [by apply list_elem_of_In | apply String.eqb_refl].
Qed.

(** The method [_convert_to_bool] decides on the lower-cased value
    alone: it returns [True] exactly on the eight truthy literals and
    [False] exactly on the seven falsy ones, in any letter case, and
    otherwise raises a [ConversionError] about the value as given (not
    lower-cased) and without a cause. *)
Theorem convert_to_bool_spec (value : string) :
  (_convert_to_bool value = Return true
   ↔ PyStr.lower value ∈ ["ja"; "yes"; "y"; "true"; "t"; "1"; "enable"; "on"])
  ∧ (_convert_to_bool value = Return false
     ↔ PyStr.lower value ∈ ["nein"; "no"; "false"; "f"; "0"; "disable"; "off"])
  ∧ (∀ e, _convert_to_bool value = Raise e →
          e = ConversionError (SubjValue value) None)
  ∧ (∀ value' b,
       PyStr.lower value = PyStr.lower value' →
       _convert_to_bool value = Return b → _convert_to_bool value' = Return b)
  ∧ (∀ b, _convert_to_bool value = Return b →
          _convert_to_bool (PyStr.lower value) = Return b).
Proof.
  assert (∀ v,
    (_convert_to_bool v = Return true
     ↔ PyStr.lower v ∈ ["ja"; "yes"; "y"; "true"; "t"; "1"; "enable"; "on"])
    ∧ (_convert_to_bool v = Return false
       ↔ PyStr.lower v ∈ ["nein"; "no"; "false"; "f"; "0"; "disable"; "off"]))
    as Hchar.
  { intros v. unfold _convert_to_bool.
    rewrite <- !in_tuple_elem_of.
    destruct (PyStr.in_tuple (PyStr.lower v) ["ja"; _; _; _; _; _; _; _]) eqn:Ht.
    - split; [done |]. split; [done |]. intros Hf. exfalso.
      apply in_tuple_elem_of in Ht.
      repeat (apply elem_of_cons in Ht as [Heq|Ht];
              [rewrite Heq in Hf; discriminate Hf |]).
      inversion Ht.
    - destruct (PyStr.in_tuple (PyStr.lower v) ["nein"; _; _; _; _; _; _]);
        split; split; done. }
  assert (∀ v v' b, PyStr.lower v = PyStr.lower v' →
            _convert_to_bool v = Return b → _convert_to_bool v' = Return b)
    as Hcase.
  { intros v v' [] Hl Hv.
    - apply Hchar. rewrite <- Hl. by apply Hchar.
    - apply Hchar. rewrite <- Hl. by apply Hchar. }
  split; [apply Hchar |]. split; [apply Hchar |]. split; [|split].
  - intros e. unfold _convert_to_bool.
    destruct (PyStr.in_tuple _ _); [done |].
    destruct (PyStr.in_tuple _ _); [done |]. by intros [= <-].
  - intros value' b. apply Hcase.
  - intros b. apply Hcase. by rewrite lower_idemp.
Qed.

Lemma convert_to_bool_spec_witness :
  _convert_to_bool "TRUE" = Return true ∧ _convert_to_bool "Enable" = Return true.
Proof.
  split.
  - apply (proj1 (proj2 (proj2 (proj2 (convert_to_bool_spec "true"))))
      "TRUE" true eq_refl eq_refl).
  - apply (proj1 (proj2 (proj2 (proj2 (convert_to_bool_spec "enable"))))
      "Enable" true eq_refl eq_refl).
Defined.

(** ** The tokenizer *)

Lemma plain_inv (c : ascii) :
  Shlex.plain c = true →
  Shlex.whitespace c = false ∧ Shlex.is_quote c = false ∧ Shlex.is_escape c = false.
Proof.
  unfold Shlex.plain.
  destruct (Shlex.whitespace c), (Shlex.is_quote c), (Shlex.is_escape c); done.
Qed.

Lemma read_cons (c : ascii) (w rest : string) st esc quoted tok :
  Shlex.read (String c w +:+ rest) st esc quoted tok
  = Shlex.read (String c (w +:+ rest)) st esc quoted tok.
Proof. done. Qed.

Lemma read_Word_plain (w rest : string) esc quoted tok :
  Shlex.all_plain w = true →
  Shlex.read (w +:+ rest) Shlex.Word esc quoted tok
  = Shlex.read rest Shlex.Word esc quoted (tok +:+ w).
Proof.
  revert tok. induction w as [|c w IH]; intros tok Hw.
  - by rewrite string_app_nil_r.
  - cbn in Hw. apply andb_true_iff in Hw as [Hc Hw].
    apply plain_inv in Hc as (Hws & Hq & He).
    rewrite read_cons. cbn [Shlex.read]. rewrite Hws, Hq, He.
    rewrite (IH _ Hw). unfold Shlex.add. by rewrite string_app_assoc.
Qed.

(** A run of plain characters in front of a quote ends up as the token
    read so far. *)
Lemma read_Space_plain (p rest : string) (q : ascii) esc :
  Shlex.all_plain p = true →
  Shlex.is_quote q = true →
  Shlex.read (p +:+ String q rest) Shlex.Space esc false ""
  = Shlex.read rest (Shlex.Quote q) esc false p.
Proof.
  intros Hp Hq.
  assert (Shlex.whitespace q = false ∧ Shlex.is_escape q = false) as [Hqw Hqe].
  { unfold Shlex.is_quote in Hq. apply orb_true_iff in Hq.
    destruct Hq as [->%Ascii.eqb_eq | ->%Ascii.eqb_eq]; done. }
  destruct p as [|c p].
  - change ("" +:+ String q rest) with (String q rest).
    cbn [Shlex.read]. by rewrite Hqw, Hqe, Hq.
  - cbn in Hp. apply andb_true_iff in Hp as [Hc Hp].
    apply plain_inv in Hc as (Hws & Hcq & He).
    rewrite read_cons. cbn [Shlex.read]. rewrite Hws, Hcq, He.
    rewrite (read_Word_plain _ _ _ _ _ Hp).
    cbn [Shlex.read]. by rewrite Hqw, Hq.
Qed.

Lemma read_Space_word (w rest : string) esc :
  Shlex.plain_word w = true →
  Shlex.read (w +:+ rest) Shlex.Space esc false ""
  = Shlex.read rest Shlex.Word esc false w.
Proof.
  unfold Shlex.plain_word. destruct w as [|c w]; [done |].
  intros Hw. cbn in Hw. apply andb_true_iff in Hw as [Hc Hw].
  apply plain_inv in Hc as (Hws & Hq & He).
  rewrite read_cons. cbn [Shlex.read]. rewrite Hws, Hq, He.
  by rewrite (read_Word_plain _ _ _ _ _ Hw).
Qed.

Lemma read_plain_words (words : list string) esc :
  Forall (λ w, Shlex.plain_word w = true) words →
  Shlex.read (PyStr.join " " words) Shlex.Space esc false "" = Return words.
Proof.
  intros Hall. revert esc. induction Hall as [|w ws Hw Hws IH]; intros esc.
  - done.
  - assert (w ≠ "") as Hne.
    { intros ->. by vm_compute in Hw. }
    destruct ws as [|w' ws].
    + cbn [PyStr.join]. rewrite <- (string_app_nil_r w) at 1.
      rewrite read_Space_word by done. cbn. unfold Shlex.emit.
      by destruct w.
    + change (PyStr.join " " (w :: w' :: ws))
        with (w +:+ String " " (PyStr.join " " (w' :: ws))).
      rewrite read_Space_word by done. cbn [Shlex.read].
      change (Shlex.whitespace " ") with true. cbn [negb orb].
      destruct w as [|c w]; [done |]. cbn [String.eqb negb orb].
      rewrite (IH Shlex.Space). done.
Qed.

Lemma read_Quote_body (q : ascii) (body rest : string) esc quoted tok :
  Shlex.escapedquotes q = false →
  PyStr.contains q body = false →
  Shlex.read (body +:+ String q rest) (Shlex.Quote q) esc quoted tok
  = Shlex.read rest Shlex.Word esc true (tok +:+ body).
Proof.
  intros Hq. revert tok quoted. induction body as [|c body IH]; intros tok quoted Hbody.
  - change ("" +:+ String q rest) with (String q rest).
    cbn [Shlex.read]. by rewrite Ascii.eqb_refl, string_app_nil_r.
  - cbn in Hbody. destruct (Ascii.eqb c q) eqn:Hc; [done |].
    rewrite read_cons. cbn [Shlex.read]. rewrite Hc, Hq, andb_false_r.
    rewrite (IH _ _ Hbody). unfold Shlex.add. by rewrite string_app_assoc.
Qed.


(** The lexer fails in two ways only, both a [ValueError]. *)
Lemma read_Raise_inv (s : string) st esc quoted tok e :
  Shlex.read s st esc quoted tok = Raise e →
  e = ValueError "No closing quotation" ∨ e = ValueError "No escaped character".
Proof.
  revert st esc quoted tok e.
  induction s as [|c s IH]; intros st esc quoted tok e.
  - destruct st; cbn; intros [= <-]; auto.
  - destruct st; cbn [Shlex.read];
      repeat match goal with
             | |- context [if ?b then _ else _] => destruct b
             end;
      try apply IH;
      (destruct (Shlex.read s Shlex.Space Shlex.Space false "") as [ts|e'] eqn:Hr;
       [done | intros [= <-]; by apply (IH _ _ _ _ _ Hr)]).
Qed.

Section TokenizerProperties.

Context {Context : Type} (converters : string → option (converter Context)).

Implicit Types (arguments : list (string * Argument Context)) (ctx : Context).

(** Non-empty words without whitespace, quotes and backslashes, joined
    by single blanks, are the tokens of the joined string, so [convert]
    on that string runs its loop over exactly these words. *)
Theorem plain_words_are_the_tokens arguments ctx (words : list string) :
  Forall (λ w, Shlex.plain_word w = true) words →
  Shlex.split (PyStr.join " " words) = Return words
  ∧ convert converters arguments ctx (Some (PyStr.join " " words))
    = (converted ← convert_tokens converters arguments ctx words ∅;
       fill arguments converted).
Proof.
  intros Hall.
  assert (Shlex.split (PyStr.join " " words) = Return words) as Hs
    by (by apply read_plain_words).
  split; [done |]. unfold convert. cbn [or_empty]. by rewrite Hs.
Qed.

(** A text between single quotes is taken as it is, blanks, [=], double
    quotes and backslashes included, and joins the plain text before
    it into one token. *)
Theorem single_quoted_text_is_kept (p body : string) :
  Shlex.all_plain p = true →
  PyStr.contains "'" body = false →
  Shlex.split (p +:+ "'" +:+ body +:+ "'") = Return [p +:+ body].
Proof.
  intros Hp Hbody. unfold Shlex.split.
  change (p +:+ "'" +:+ body +:+ "'")
    with (p +:+ String "'" (body +:+ String "'" "")).
  rewrite read_Space_plain by done.
  rewrite read_Quote_body by done. done.
Qed.


Lemma convert_tokens_Raise_inv arguments ctx tokens m e :
  convert_tokens converters arguments ctx tokens m = Raise e →
  ∃ t, t ∈ tokens ∧ PyStr.contains "=" t = true ∧
    ((e = UnknownArgumentError (token_name t)
      ∧ get arguments (PyStr.lower (token_name t)) = None)
     ∨ (∃ argument e0,
          get arguments (PyStr.lower (token_name t)) = Some argument
          ∧ _convert_value converters ctx (arg_converter argument) (token_value t)
            = Raise e0
          ∧ ((is_ConversionError e0 = true
              ∧ e = InvalidArgumentValueError (token_name t) (token_value t))
             ∨ (is_ConversionError e0 = false ∧ is_Exception e0 = true
                ∧ e = ConversionError SubjSelf (Some e0))
             ∨ (is_Exception e0 = false ∧ e = e0)))).
Proof.
  revert m. induction tokens as [|t tokens IH]; intros m; [done |].
  destruct (PyStr.contains "=" t) eqn:Ht.
  - rewrite convert_tokens_pair by done. unfold step.
    destruct (get arguments _) as [argument|] eqn:Hget.
    + destruct (_convert_value _ _ _ _) as [x|e0] eqn:Hv.
      * intros (t' & Hin & H)%IH. exists t'. split; [by apply list_elem_of_further | done].
      * intros He. exists t. split; [apply list_elem_of_here |]. split; [done |].
        right. exists argument, e0. split; [done |]. split; [done |].
        destruct (is_ConversionError e0) eqn:Hc.
        -- left. by injection He as <-.
        -- destruct (is_Exception e0) eqn:Hex.
           ++ right. left. by injection He as <-.
           ++ right. right. by injection He as <-.
    + intros [= <-]. exists t. split; [apply list_elem_of_here |]. split; [done |].
      by left.
  - rewrite convert_tokens_skip by done.
    intros (t' & Hin & H)%IH. exists t'. split; [by apply list_elem_of_further | done].
Qed.

(** Every [Exception] that leaves [convert] is one of five kinds: the
    [ValueError] of the tokenizer, [UnknownArgumentError],
    [InvalidArgumentValueError], [ConversionError(self, e)] or
    [MissingRequiredArgument]; the first two errors of a token carry the
    name, and the value, of a token of the input. No exception of a
    converter that is an [Exception] reaches the caller as it was
    raised. *)
Theorem convert_error_kinds arguments ctx argstr e :
  convert converters arguments ctx argstr = Raise e →
  is_Exception e = true →
  Shlex.split (or_empty argstr) = Raise e
  ∨ (∃ tokens t,
       Shlex.split (or_empty argstr) = Return tokens ∧ t ∈ tokens
       ∧ (e = UnknownArgumentError (token_name t)
          ∨ e = InvalidArgumentValueError (token_name t) (token_value t)
          ∨ ∃ e0, e = ConversionError SubjSelf (Some e0)
                  ∧ is_ConversionError e0 = false))
  ∨ (∃ name argument,
       e = MissingRequiredArgument name ∧ (name, argument) ∈ arguments
       ∧ is_RequiredArgument argument = true).
Proof.
  unfold convert. intros Hconv He.
  destruct (Shlex.split (or_empty argstr)) as [tokens|e'] eqn:Hs; cbn in Hconv.
  - destruct (convert_tokens converters arguments ctx tokens ∅) as [m|e'] eqn:Hloop;
      cbn in Hconv.
    + right. right.
      clear Hloop Hs. revert m Hconv.
      induction arguments as [|[n a] items IH]; intros m; cbn; [done |].
      destruct (is_RequiredArgument a && not_in n m) eqn:Hreq.
      * intros [= <-]. apply andb_true_iff in Hreq as [Ha _].
        exists n, a. split; [done |]. split; [apply list_elem_of_here | done].
      * intros Hrest.
        assert (∃ m', fill items m' = Raise e) as [m' Hm'].
        { destruct (is_not_None (arg_default a) && not_in n m); eauto. }
        destruct (IH _ Hm') as (name & argument & -> & Hin & Harg).
        exists name, argument. split; [done |].
        split; [by apply list_elem_of_further | done].
    + injection Hconv as ->. right. left.
      apply convert_tokens_Raise_inv in Hloop
        as (t & Hin & _ & [[-> _]|(argument & e0 & _ & _ & Hcases)]).
      * exists tokens, t. auto.
      * exists tokens, t. split; [done |]. split; [done |].
        destruct Hcases as [[_ ->]|[(Hc & _ & ->)|[Hex ->]]]; [auto | eauto |].
        congruence.
  - injection Hconv as ->. by left.
Qed.

End TokenizerProperties.

Lemma plain_words_are_the_tokens_witness :
  Shlex.split (PyStr.join " " ["turns=2"; "images=no"])
  = Return ["turns=2"; "images=no"].
Proof.
  apply (proj1 (plain_words_are_the_tokens (Context := unit) (λ _, None) [] ()
    ["turns=2"; "images=no"] ltac:(repeat constructor))).
Defined.

Lemma single_quoted_text_is_kept_witness :
  Shlex.split "name='a b=\c'" = Return ["name=a b=\c"].
Proof.
  apply (single_quoted_text_is_kept "name=" "a b=\c"); reflexivity.
Defined.


Lemma convert_error_kinds_witness :
  Shlex.split (or_empty (Some "n=5")) = Raise (InvalidArgumentValueError "n" "5")
  ∨ (∃ tokens t,
       Shlex.split (or_empty (Some "n=5")) = Return tokens ∧ t ∈ tokens
       ∧ (InvalidArgumentValueError "n" "5" = UnknownArgumentError (token_name t)
          ∨ InvalidArgumentValueError "n" "5"
            = InvalidArgumentValueError (token_name t) (token_value t)
          ∨ ∃ e0, InvalidArgumentValueError "n" "5"
                  = ConversionError SubjSelf (Some e0)
                  ∧ is_ConversionError e0 = false))
  ∨ (∃ name argument,
       InvalidArgumentValueError "n" "5" = MissingRequiredArgument name
       ∧ (name, argument)
         ∈ [("n", OptionalArgument (Context := unit) rejecting "" PyNone)]
       ∧ is_RequiredArgument argument = true).
Proof.
  apply (convert_error_kinds (λ _, None)
    [("n", OptionalArgument (Context := unit) rejecting "" PyNone)] ()
    (Some "n=5") (InvalidArgumentValueError "n" "5")); reflexivity.
Defined.

(** ** The defaulting stage and [defaults] *)

Section FillProperties.

Context {Context : Type}.

Implicit Types (arguments items : list (string * Argument Context)).
Implicit Types (converted m r : gmap string val).

Lemma defaults_loop_acc items (acc : gmap string val) :
  defaults_loop items acc = defaults_loop items ∅ ∪ acc.
Proof.
  revert acc. induction items as [|[n a] items IH]; intros acc; cbn.
  - by rewrite (left_id_L ∅ (∪)).
  - destruct (is_not_None (arg_default a)); [|apply IH].
    rewrite (IH (<[n := arg_default a]> acc)), (IH (<[n := arg_default a]> ∅)).
    rewrite <- (assoc_L (∪)). f_equal.
    by rewrite insert_union_singleton_l, <- insert_union_singleton_l,
      insert_empty, <- insert_union_singleton_l.
Qed.

Lemma defaults_cons n a items :
  defaults ((n, a) :: items)
  = if is_not_None (arg_default a)
    then defaults items ∪ {[ n := arg_default a ]}
    else defaults items.
Proof.
  unfold defaults. cbn. destruct (is_not_None (arg_default a)); [|done].
  by rewrite defaults_loop_acc, insert_empty.
Qed.

Lemma defaults_lookup_fresh n items :
  n ∉ items.*1 → defaults items !! n = None.
Proof.
  induction items as [|[n' a] items IH]; [done |].
  rewrite fmap_cons. intros [Hne Hn]%not_elem_of_cons. cbn in Hne.
  rewrite defaults_cons.
  destruct (is_not_None (arg_default a)); [|by apply IH].
  rewrite lookup_union, (IH Hn), lookup_singleton_ne by done. done.
Qed.

Lemma union_defaults_cons n a items m :
  n ∉ items.*1 →
  (if is_not_None (arg_default a) && not_in n m
   then <[n := arg_default a]> m else m) ∪ defaults items
  = m ∪ defaults ((n, a) :: items).
Proof.
  intros Hn. pose proof (defaults_lookup_fresh _ _ Hn) as HD.
  rewrite defaults_cons. apply map_eq. intros k.
  destruct (is_not_None (arg_default a)); cbn [andb]; [|done].
  unfold not_in. rewrite !lookup_union.
  destruct (decide (k = n)) as [->|Hne].
  - rewrite HD, lookup_singleton_eq.
    destruct (m !! n) as [x|] eqn:Hm.
    + by rewrite Hm.
    + by rewrite lookup_insert_eq.
  - rewrite lookup_singleton_ne by done.
    destruct (m !! n); [|rewrite lookup_insert_ne by done];
      by destruct (m !! k), (defaults items !! k).
Qed.

Lemma fill_required_Return items m :
  NoDup items.*1 →
  (∀ n a, (n, a) ∈ items → is_RequiredArgument a = true → is_Some (m !! n)) →
  fill items m = Return (m ∪ defaults items).
Proof.
  revert m. induction items as [|[n a] items IH]; intros m Hnodup Hreq.
  - cbn. unfold defaults. cbn. by rewrite (right_id_L ∅ (∪)).
  - apply NoDup_cons in Hnodup as [Hn Hnodup].
    rewrite <- (union_defaults_cons n a items m Hn). cbn.
    assert ((is_RequiredArgument a && not_in n m) = false) as ->.
    { destruct (is_RequiredArgument a) eqn:Ha; [|done].
      destruct (Hreq n a (list_elem_of_here _ _) Ha) as [x Hx].
      unfold not_in. by rewrite Hx. }
    destruct (is_not_None (arg_default a) && not_in n m); apply IH; try done.
    + intros n' a' Hin Ha'. rewrite lookup_insert_is_Some'. right.
      apply (Hreq n' a'); [by apply list_elem_of_further | done].
    + intros n' a' Hin Ha'.
      apply (Hreq n' a'); [by apply list_elem_of_further | done].
Qed.

Lemma fill_Return_required items m r :
  NoDup items.*1 →
  fill items m = Return r →
  ∀ n a, (n, a) ∈ items → is_RequiredArgument a = true → is_Some (m !! n).
Proof.
  revert m. induction items as [|[n0 a0] items IH]; intros m Hnodup Hr n a Hin Ha.
  - by apply elem_of_nil in Hin.
  - apply NoDup_cons in Hnodup as [Hn0 Hnodup]. cbn in Hr.
    destruct (is_RequiredArgument a0 && not_in n0 m) eqn:Hreq; [done |].
    apply elem_of_cons in Hin as [[= -> ->]|Hin].
    + rewrite Ha in Hreq. unfold not_in in Hreq. by destruct (m !! n0).
    + assert (n ≠ n0) as Hne.
      { intros ->. apply Hn0, list_elem_of_fmap. by exists (n0, a). }
      destruct (is_not_None (arg_default a0) && not_in n0 m).
      * specialize (IH _ Hnodup Hr n a Hin Ha).
        by rewrite lookup_insert_ne in IH.
      * by apply (IH _ Hnodup Hr n a).
Qed.

(** The stage after the loop returns exactly when every required
    argument has an entry among the converted tokens, and then the
    result is these entries over the mapping of [defaults()]: a
    converted value wins over a default, every other non-[None] default
    is there, and nothing else is. *)
Theorem fill_is_converted_over_defaults arguments m r :
  NoDup arguments.*1 →
  fill arguments m = Return r
  ↔ (∀ n a, (n, a) ∈ arguments → is_RequiredArgument a = true → is_Some (m !! n))
    ∧ r = m ∪ defaults arguments.
Proof.
  intros Hnodup. split.
  - intros Hr.
    pose proof (fill_Return_required _ _ _ Hnodup Hr) as Hreq.
    split; [done |]. rewrite (fill_required_Return _ _ Hnodup Hreq) in Hr.
    by injection Hr as <-.
  - intros [Hreq ->]. by apply fill_required_Return.
Qed.

(** Running the stage again on its own result changes nothing. *)
Theorem fill_is_idempotent arguments m r :
  NoDup arguments.*1 →
  fill arguments m = Return r → fill arguments r = Return r.
Proof.
  intros Hnodup Hr.
  pose proof (fill_Return_required _ _ _ Hnodup Hr) as Hreq.
  rewrite (fill_required_Return _ _ Hnodup Hreq) in Hr. injection Hr as <-.
  rewrite fill_required_Return; [|done|].
  - f_equal. rewrite <- (assoc_L (∪)). by rewrite (idemp_L (∪)).
  - intros n a Hin Ha. destruct (Hreq n a Hin Ha) as [x Hx].
    exists x. by apply lookup_union_Some_l.
Qed.

Lemma get_Some_elem_of arguments key argument :
  NoDup arguments.*1 →
  get arguments key = Some argument ↔ (key, argument) ∈ arguments.
Proof.
  induction arguments as [|[n a] items IH]; intros Hnodup; cbn.
  - split; [done | by intros ?%elem_of_nil].
  - apply NoDup_cons in Hnodup as [Hn Hnodup].
    destruct (String.eqb n key) eqn:Hk.
    + apply String.eqb_eq in Hk as ->. split.
      * intros [= ->]. apply list_elem_of_here.
      * intros [[= ->]|Hin]%elem_of_cons; [done |].
        exfalso. apply Hn, list_elem_of_fmap. by exists (key, argument).
    + apply String.eqb_neq in Hk. rewrite (IH Hnodup). split.
      * by apply list_elem_of_further.
      * by intros [[= -> ->]|Hin]%elem_of_cons.
Qed.


Lemma get_Permutation arguments arguments' key :
  arguments ≡ₚ arguments' → NoDup arguments.*1 →
  get arguments key = get arguments' key.
Proof.
  intros Hperm Hnodup.
  assert (NoDup arguments'.*1) as Hnodup' by (by rewrite <- Hperm).
  destruct (get arguments key) as [a|] eqn:Hget.
  - symmetry. apply get_Some_elem_of; [done |]. rewrite <- Hperm.
    by apply get_Some_elem_of.
  - destruct (get arguments' key) as [a'|] eqn:Hget'; [|done].
    apply get_Some_elem_of in Hget'; [|done]. rewrite <- Hperm in Hget'.
    apply get_Some_elem_of in Hget'; [|done]. congruence.
Qed.

Lemma defaults_Permutation arguments arguments' :
  arguments ≡ₚ arguments' → NoDup arguments.*1 →
  defaults arguments = defaults arguments'.
Proof.
  intros Hperm Hnodup.
  assert (NoDup arguments'.*1) as Hnodup' by (by rewrite <- Hperm).
  apply map_eq. intros k. apply option_eq. intros d. unfold defaults.
  rewrite !defaults_loop_lookup by done.
  rewrite !lookup_empty.
  split; (intros [(a & Hin & H)|[_ ?]]; [|done]); left; exists a;
    (split; [|done]); [by rewrite <- Hperm | by rewrite Hperm].
Qed.

End FillProperties.

Lemma fill_is_converted_over_defaults_witness :
  fill (quiz_arguments (Context := unit) str_type Embed) {[ "turns" := PyStr "3" ]}
  = Return {[ "turns" := PyStr "3"; "images" := PyBool true ]}
  ↔ (∀ n a, (n, a) ∈ quiz_arguments (Context := unit) str_type Embed →
            is_RequiredArgument a = true →
            is_Some (({[ "turns" := PyStr "3" ]} : gmap string val) !! n))
    ∧ ({[ "turns" := PyStr "3"; "images" := PyBool true ]} : gmap string val)
      = {[ "turns" := PyStr "3" ]}
        ∪ defaults (quiz_arguments (Context := unit) str_type Embed).
Proof.
  apply (fill_is_converted_over_defaults
    (quiz_arguments (Context := unit) str_type Embed)
    {[ "turns" := PyStr "3" ]}
    {[ "turns" := PyStr "3"; "images" := PyBool true ]}
    ltac:(distinct_names)).
Defined.

Lemma fill_is_idempotent_witness :
  fill (quiz_arguments (Context := unit) str_type Embed)
    {[ "turns" := PyStr "3"; "images" := PyBool true ]}
  = Return {[ "turns" := PyStr "3"; "images" := PyBool true ]}.
Proof.
  apply (fill_is_idempotent (quiz_arguments (Context := unit) str_type Embed)
    {[ "turns" := PyStr "3" ]} _ ltac:(distinct_names)).
  reflexivity.
Defined.

(** ** The whole conversion *)

Section ConvertProperties.

Context {Context : Type} (converters : string → option (converter Context)).

Implicit Types (arguments : list (string * Argument Context)) (ctx : Context).
Implicit Types (converted m r : gmap string val) (t : string).

Lemma convert_tokens_no_pairs arguments ctx tokens m :
  Forall (λ t, PyStr.contains "=" t = false) tokens →
  convert_tokens converters arguments ctx tokens m = Return m.
Proof.
  induction 1 as [|t tokens Ht _ IH]; [done |].
  by rewrite convert_tokens_skip.
Qed.

(** With no required argument declared, an input without any
    [key=value] token (the empty or absent string, blanks, bare words)
    converts to the mapping of [defaults()]. *)
Theorem input_without_pairs_gives_defaults arguments ctx argstr tokens :
  NoDup arguments.*1 →
  (∀ n a, (n, a) ∈ arguments → is_RequiredArgument a = false) →
  Shlex.split (or_empty argstr) = Return tokens →
  Forall (λ t, PyStr.contains "=" t = false) tokens →
  convert converters arguments ctx argstr = Return (defaults arguments).
Proof.
  intros Hnodup Hopt Hs Htokens. unfold convert. rewrite Hs. cbn.
  rewrite convert_tokens_no_pairs by done. cbn.
  rewrite fill_required_Return; [|done|].
  - by rewrite (left_id_L ∅ (∪)).
  - intros n a Hin Ha. by rewrite (Hopt n a Hin) in Ha.
Qed.

(** The keys of the mapping after the loop are the keys it started
    with and the names, as typed, of the tokens with a [=]; and the loop
    returns only if each of these tokens names a declared argument and
    has a value its converter accepts. *)
Theorem convert_tokens_keys arguments ctx tokens m r :
  convert_tokens converters arguments ctx tokens m = Return r →
  (∀ k, is_Some (r !! k)
        ↔ is_Some (m !! k)
          ∨ ∃ t, t ∈ tokens ∧ PyStr.contains "=" t = true ∧ token_name t = k)
  ∧ Forall (λ t, PyStr.contains "=" t = true →
                 converts converters arguments ctx t) tokens.
Proof.
  revert m. induction tokens as [|t tokens IH]; intros m Hr.
  - injection Hr as <-. split; [|constructor].
    intros k. split; [by left |]. intros [?|(t & []%elem_of_nil & _)]. done.
  - destruct (PyStr.contains "=" t) eqn:Ht.
    + apply convert_tokens_Return_inv in Hr as (argument & x & Hget & Hx & Hr);
        [|done].
      destruct (IH _ Hr) as [Hkeys Hall]. split.
      * intros k. rewrite Hkeys, lookup_insert_is_Some. split.
        -- intros [[<-|[_ Hm]]|(t' & Hin & Ht' & Hname)].
           ++ right. exists t. split; [apply list_elem_of_here | done].
           ++ by left.
           ++ right. exists t'. split; [by apply list_elem_of_further | done].
        -- intros [Hm|(t' & [->|Hin]%elem_of_cons & Ht' & Hname)].
           ++ destruct (decide (token_name t = k)); [left; by left |].
              left. right. done.
           ++ left. by left.
           ++ right. by exists t'.
      * constructor; [|done]. intros _. split; [done |]. by exists argument, x.
    + rewrite convert_tokens_skip in Hr by done.
      destruct (IH _ Hr) as [Hkeys Hall]. split.
      * intros k. rewrite Hkeys. split.
        -- intros [?|(t' & Hin & Ht' & Hname)]; [by left |].
           right. exists t'. split; [by apply list_elem_of_further | done].
        -- intros [?|(t' & [->|Hin]%elem_of_cons & Ht' & Hname)];
             [by left | congruence |].
           right. by exists t'.
      * constructor; [|done]. intros ?. congruence.
Qed.

(** The first token that fails ends the loop: what follows it is never
    looked at; and a missing required argument is reported only when
    the tokenizer and every token have succeeded. *)
Theorem first_error_aborts arguments ctx :
  (∀ pre post m e,
     convert_tokens converters arguments ctx pre m = Raise e →
     convert_tokens converters arguments ctx (pre ++ post) m = Raise e)
  ∧ (∀ argstr name,
       convert converters arguments ctx argstr = Raise (MissingRequiredArgument name) →
       ∃ tokens converted,
         Shlex.split (or_empty argstr) = Return tokens
         ∧ convert_tokens converters arguments ctx tokens ∅ = Return converted
         ∧ fill arguments converted = Raise (MissingRequiredArgument name)).
Proof.
  split.
  - intros pre post m e Hpre. by rewrite convert_tokens_app, Hpre.
  - intros argstr name. unfold convert.
    destruct (Shlex.split (or_empty argstr)) as [tokens|e] eqn:Hs; cbn.
    + destruct (convert_tokens converters arguments ctx tokens ∅)
        as [converted|e] eqn:Hloop; cbn.
      * intros Hfill. by exists tokens, converted.
      * intros [= ->].
        apply convert_tokens_Raise_inv in Hloop
          as (t & _ & _ & [[[=] _]|(a & e0 & _ & _ & Hcases)]).
        destruct Hcases as [[_ [=]]|[(_ & _ & [=])|[Hex <-]]]. done.
    + intros [= ->]. by destruct (read_Raise_inv _ _ _ _ _ _ Hs).
Qed.

Lemma convert_tokens_ext arguments arguments' ctx tokens m :
  (∀ key, get arguments key = get arguments' key) →
  convert_tokens converters arguments ctx tokens m
  = convert_tokens converters arguments' ctx tokens m.
Proof.
  intros Hget. revert m. induction tokens as [|t tokens IH]; intros m; [done |].
  destruct (PyStr.contains "=" t) eqn:Ht.
  - rewrite !convert_tokens_pair by done. unfold step. rewrite <- Hget.
    destruct (get arguments _); [|done].
    destruct (_convert_value _ _ _ _); [apply IH | done].
  - rewrite !convert_tokens_skip by done. apply IH.
Qed.

(** The order in which the arguments are declared has no effect on
    the lookup, on [defaults()] or on the mapping a conversion returns
    (it only decides which missing argument is named). *)
Theorem declaration_order_is_irrelevant arguments arguments' ctx :
  arguments ≡ₚ arguments' →
  NoDup arguments.*1 →
  (∀ key, get arguments key = get arguments' key)
  ∧ defaults arguments = defaults arguments'
  ∧ (∀ argstr r,
       convert converters arguments ctx argstr = Return r →
       convert converters arguments' ctx argstr = Return r)
  ∧ (∀ argstr e,
       convert converters arguments ctx argstr = Raise e →
       ∃ e', convert converters arguments' ctx argstr = Raise e').
Proof.
  intros Hperm Hnodup.
  assert (NoDup arguments'.*1) as Hnodup' by (by rewrite <- Hperm).
  assert (∀ key, get arguments key = get arguments' key) as Hget.
  { intros key. by apply get_Permutation. }
  pose proof (defaults_Permutation _ _ Hperm Hnodup) as Hdef.
  assert (∀ m r, fill arguments m = Return r ↔ fill arguments' m = Return r)
    as Hfill.
  { intros m r. split; intros Hr.
    - pose proof (fill_Return_required _ _ _ Hnodup Hr) as Hreq.
      rewrite (fill_required_Return _ _ Hnodup Hreq) in Hr. injection Hr as <-.
      rewrite Hdef. apply fill_required_Return; [done |].
      intros n a Hin. apply Hreq. by rewrite Hperm.
    - pose proof (fill_Return_required _ _ _ Hnodup' Hr) as Hreq.
      rewrite (fill_required_Return _ _ Hnodup' Hreq) in Hr. injection Hr as <-.
      rewrite <- Hdef. apply fill_required_Return; [done |].
      intros n a Hin. apply Hreq. by rewrite <- Hperm. }
  split; [done |]. split; [done |]. split.
  - intros argstr r. unfold convert.
    destruct (Shlex.split (or_empty argstr)) as [tokens|e]; [|done]. cbn.
    rewrite <- (convert_tokens_ext _ _ _ _ _ Hget).
    destruct (convert_tokens converters arguments ctx tokens ∅); [|done]. cbn.
    apply Hfill.
  - intros argstr e. unfold convert.
    destruct (Shlex.split (or_empty argstr)) as [tokens|e0]; [|by exists e0]. cbn.
    rewrite <- (convert_tokens_ext _ _ _ _ _ Hget).
    destruct (convert_tokens converters arguments ctx tokens ∅) as [m|e0];
      [|by exists e0]. cbn.
    destruct (fill arguments' m) as [r'|e'] eqn:Hr'; [|by exists e'].
    apply Hfill in Hr'. congruence.
Qed.



(** An exception of a converter that is no [Exception], such as
    [KeyboardInterrupt], is caught by neither handler and leaves
    [convert] as it was raised. *)
Theorem non_exception_passes_through arguments ctx t rest m argument c e :
  PyStr.contains "=" t = true →
  get arguments (PyStr.lower (token_name t)) = Some argument →
  conv_shape (arg_converter argument) ≠ BoolType →
  resolve converters (arg_converter argument) = Return c →
  conv_shape c = PlainObject →
  conv_call c (token_value t) = Raise e →
  is_Exception e = false →
  convert_tokens converters arguments ctx (t :: rest) m = Raise e.
Proof.
  intros Ht Hget Hshape Hres Hc Hcall He.
  rewrite convert_tokens_pair by done. unfold step. rewrite Hget.
  rewrite convert_value_not_bool by done. rewrite Hres. cbn.
  unfold invoke, invoke_convert. rewrite Hc, Hcall. cbn. rewrite He.
  destruct e; try done.
Qed.


End ConvertProperties.

Lemma input_without_pairs_gives_defaults_witness :
  convert (Context := unit) (λ _, None)
    [("images", OptionalArgument bool_type "" (PyBool true));
     ("voice_channel", OptionalArgument VoiceChannel "" PyNone)] ()
    (Some "hello  world")
  = Return (defaults
      [("images", OptionalArgument (Context := unit) bool_type "" (PyBool true));
       ("voice_channel", OptionalArgument VoiceChannel "" PyNone)]).
Proof.
  apply (input_without_pairs_gives_defaults (Context := unit) (λ _, None)
    [("images", OptionalArgument bool_type "" (PyBool true));
     ("voice_channel", OptionalArgument VoiceChannel "" PyNone)] ()
    (Some "hello  world") ["hello"; "world"] ltac:(distinct_names)).
  - intros n a Hin.
    repeat (apply elem_of_cons in Hin as [[= -> ->]|Hin]; [reflexivity |]).
    inversion Hin.
  - reflexivity.
  - repeat constructor.
Defined.

Lemma convert_tokens_keys_witness :
  (∀ k, is_Some (({[ "turns" := PyStr "2" ]} : gmap string val) !! k)
        ↔ is_Some ((∅ : gmap string val) !! k)
          ∨ ∃ t, t ∈ ["turns=2"; "foo"] ∧ PyStr.contains "=" t = true
                 ∧ token_name t = k)
  ∧ Forall (λ t, PyStr.contains "=" t = true →
                 converts (Context := unit) (λ _, None)
                   [("turns", RequiredArgument str_type "" PyNone)] () t)
      ["turns=2"; "foo"].
Proof.
  apply (convert_tokens_keys (Context := unit) (λ _, None)
    [("turns", RequiredArgument str_type "" PyNone)] ()
    ["turns=2"; "foo"] ∅ {[ "turns" := PyStr "2" ]}).
  reflexivity.
Defined.

Lemma first_error_aborts_witness :
  convert_tokens (Context := unit) (λ _, None)
    [("turns", RequiredArgument str_type "" PyNone)] ()
    (["bogus=1"] ++ ["turns=2"]) ∅
  = Raise (UnknownArgumentError "bogus").
Proof.
  apply (proj1 (first_error_aborts (Context := unit) (λ _, None)
    [("turns", RequiredArgument str_type "" PyNone)] ())).
  reflexivity.
Defined.

Lemma declaration_order_is_irrelevant_witness :
  defaults
    [("a", OptionalArgument (Context := unit) str_type "" (PyInt 1));
     ("b", OptionalArgument str_type "" (PyInt 2))]
  = defaults
      [("b", OptionalArgument (Context := unit) str_type "" (PyInt 2));
       ("a", OptionalArgument str_type "" (PyInt 1))].
Proof.
  apply (proj1 (proj2 (declaration_order_is_irrelevant (Context := unit)
    (λ _, None)
    [("a", OptionalArgument str_type "" (PyInt 1));
     ("b", OptionalArgument str_type "" (PyInt 2))]
    [("b", OptionalArgument str_type "" (PyInt 2));
     ("a", OptionalArgument str_type "" (PyInt 1))] ()
    (perm_swap _ _ []) ltac:(distinct_names)))).
Defined.


Lemma non_exception_passes_through_witness :
  convert_tokens (Context := unit) (λ _, None)
    [("n", OptionalArgument interrupted "" PyNone)] () ["n=1"] ∅
  = Raise (BaseExceptionOnly "KeyboardInterrupt").
Proof.
  apply (non_exception_passes_through (Context := unit) (λ _, None)
    [("n", OptionalArgument interrupted "" PyNone)] () "n=1" [] ∅
    (OptionalArgument interrupted "" PyNone) interrupted);
    first [reflexivity | discriminate].
Defined.

